(** * The [destructuring-assignment] rule of eslint-plugin-react

    A shallow embedding of [lib/rules/destructuring-assignment.js]: the
    parameter evaluator, the stack of component parameters, the set of
    names bound to [useContext] results, and the visitor handlers, with
    the reports they hand to the lint engine.  The mutable state of the
    rule ([queue], [contextSet], and the reports sent so far) is threaded
    explicitly through the handlers. *)

From stdpp Require Import base option list strings gmap.

(** ** Syntax nodes

    ESTree nodes are objects tagged by their [type]; the rule reads the
    fields below.  A field read on a node that does not have it is
    [undefined] in the source and [None] here.  [OtherNode] stands for
    the kinds of node that have none of these fields, such as statements
    and class members; every node has a [range], may have a
    [typeAnnotation], and has a [parent] unless it is the root.  The rule
    reads [name] and [callee] without a test of the type, so the other
    kinds that have them are here too: a private name ([#props]) has a
    [name], and a [new] expression has a [callee]. *)

Inductive FunctionType : Type :=
  | FunctionDeclaration
  | ArrowFunctionExpression
  | FunctionExpression.

#[local] Unset Elimination Schemes.

Inductive Node : Type :=
  | mkNode (shape : Shape) (range : nat * nat)
           (typeAnnotation : option Node) (parent : option Node)
with Shape : Type :=
  | Identifier (name : string)
  | ObjectPattern
  | ThisExpression
  | MemberExpression (object property : Node)
  | CallExpression (callee : Node)
  | VariableDeclaratorNode (id : Node) (init : option Node)
  | FunctionNode (ftype : FunctionType) (params : list Node)
  | OtherNode (type : string)
  | PrivateIdentifier (name : string)
  | NewExpression (callee : Node).

#[local] Set Elimination Schemes.

Definition n_shape (n : Node) : Shape :=
  match n with mkNode s _ _ _ => s end.

Definition n_range (n : Node) : nat * nat :=
  match n with mkNode _ r _ _ => r end.

Definition n_typeAnnotation (n : Node) : option Node :=
  match n with mkNode _ _ t _ => t end.

Definition n_parent (n : Node) : option Node :=
  match n with mkNode _ _ _ p => p end.

Definition n_type (n : Node) : string :=
  match n_shape n with
  | Identifier _ => "Identifier"
  | ObjectPattern => "ObjectPattern"
  | ThisExpression => "ThisExpression"
  | MemberExpression _ _ => "MemberExpression"
  | CallExpression _ => "CallExpression"
  | VariableDeclaratorNode _ _ => "VariableDeclarator"
  | FunctionNode FunctionDeclaration _ => "FunctionDeclaration"
  | FunctionNode ArrowFunctionExpression _ => "ArrowFunctionExpression"
  | FunctionNode FunctionExpression _ => "FunctionExpression"
  | OtherNode t => t
  | PrivateIdentifier _ => "PrivateIdentifier"
  | NewExpression _ => "NewExpression"
  end.

Definition n_name (n : Node) : option string :=
  match n_shape n with
  | Identifier s | PrivateIdentifier s => Some s
  | _ => None
  end.

Definition n_object (n : Node) : option Node :=
  match n_shape n with MemberExpression o _ => Some o | _ => None end.

Definition n_property (n : Node) : option Node :=
  match n_shape n with MemberExpression _ p => Some p | _ => None end.

Definition n_callee (n : Node) : option Node :=
  match n_shape n with
  | CallExpression c | NewExpression c => Some c
  | _ => None
  end.

Definition n_id (n : Node) : option Node :=
  match n_shape n with VariableDeclaratorNode i _ => Some i | _ => None end.

Definition n_init (n : Node) : option Node :=
  match n_shape n with VariableDeclaratorNode _ i => i | _ => None end.

Definition n_params (n : Node) : list Node :=
  match n_shape n with FunctionNode _ ps => ps | _ => [] end.

(** The same reads on a node that may itself be [undefined], as in
    [node.init.callee && node.init.callee.name]. *)
Definition o_type (o : option Node) : option string :=
  match o with Some n => Some (n_type n) | None => None end.

Definition o_name (o : option Node) : option string :=
  match o with Some n => n_name n | None => None end.

Definition o_object (o : option Node) : option Node :=
  match o with Some n => n_object n | None => None end.

Definition o_property (o : option Node) : option Node :=
  match o with Some n => n_property n | None => None end.

Definition o_callee (o : option Node) : option Node :=
  match o with Some n => n_callee n | None => None end.

(** [a.b === 'lit'], where [a.b] may be [undefined]. *)
Definition is_str (v : option string) (lit : string) : bool :=
  match v with Some s => String.eqb s lit | None => false end.

(** Truthiness of a string-or-[false] value: the empty string is falsy. *)
Definition truthy (v : option string) : bool :=
  match v with Some s => negb (String.eqb s "") | None => false end.

(** ** Parameter evaluator and the stack of component parameters *)

Record ParameterDescriptor : Type := {
  destructuring : bool;
  (* [false] in the source when the parameter is not an identifier *)
  name : option string
}.

Definition evalParams (params : list Node) : list ParameterDescriptor :=
  map (fun param =>
         {| destructuring := String.eqb (n_type param) "ObjectPattern";
            name := if String.eqb (n_type param) "Identifier"
                    then n_name param else None |})
      params.

Module sfcParams.

(** [queue]: most recently entered function first. *)
Definition t : Type := list (list ParameterDescriptor).

Definition create : t := [].

Definition push (params : list ParameterDescriptor) (queue : t) : t :=
  params :: queue.

Definition pop (queue : t) : t := tail queue.

(** The test of [queue.find] in [propsName] ([i = 0]) and in
    [contextName] ([i = 1]). *)
Definition named_slot (i : nat) (params : list ParameterDescriptor) : bool :=
  match params !! i with
  | Some p => negb (destructuring p) && truthy (name p)
  | None => false
  end.

Definition slot_name (i : nat) (queue : t) : option string :=
  found ← List.find (named_slot i) queue;
  p ← found !! i;
  name p.

Definition propsName (queue : t) : option string := slot_name 0 queue.

Definition contextName (queue : t) : option string := slot_name 1 queue.

End sfcParams.

(** ** What the lint engine and the plugin's utilities provide *)

(** [component.node] is the only field of a registered component that the
    rule reads. *)
Record Component : Type := { c_node : Node }.

Record ScopeVariable : Type := { references : list Node }.

#[local] Unset Elimination Schemes.

Inductive Scope : Type :=
  | mkScope (block : Node) (upper : option Scope)
            (set : gmap string ScopeVariable).

#[local] Set Elimination Schemes.

Definition block (s : Scope) : Node :=
  match s with mkScope b _ _ => b end.

Definition upper (s : Scope) : option Scope :=
  match s with mkScope _ u _ => u end.

Definition scope_set (s : Scope) : gmap string ScopeVariable :=
  match s with mkScope _ _ m => m end.

(** The collaborators the rule calls but does not define:
    [components.get], [context.getScope] (the scope of the node being
    visited), [utils.getParentComponent], [isAssignmentLHS],
    [testReactVersion] and [context.getSourceCode().getText].  A host
    holds their answers at one moment of a traversal: the registry
    behind [components.get] is filled while the file is traversed, so
    that its answer about a node can differ from one event to a later
    one ([runIn] below runs each event with the host of its moment). *)
Class Host : Type := {
  components_get : Node -> option Component;
  getScope : Node -> Scope;
  getParentComponent : Node -> option Component;
  isAssignmentLHS : Node -> bool;
  testReactVersion : string -> bool;
  getText : Node -> string
}.

Record OptionsObject : Type := {
  opt_ignoreClassFields : option bool;
  opt_destructureInSignature : option string
}.

(** [context.options]: the positional mode and the options object. *)
Class Options : Type := {
  options0 : option string;
  options1 : option OptionsObject
}.

Definition DEFAULT_OPTION : string := "always".

(** ** Messages and reports *)

Module messages.
Definition noDestructPropsInSFCArg : string :=
  "Must never use destructuring props assignment in SFC argument".
Definition noDestructContextInSFCArg : string :=
  "Must never use destructuring context assignment in SFC argument".
Definition noDestructAssignment : string :=
  "Must never use destructuring {{type}} assignment".
Definition useDestructAssignment : string :=
  "Must use destructuring {{type}} assignment".
Definition destructureInSignature : string :=
  "Must destructure props in the function signature.".

(** The keys of the [messages] object. *)
Definition keys : list string :=
  [ "noDestructPropsInSFCArg"; "noDestructContextInSFCArg";
    "noDestructAssignment"; "useDestructAssignment";
    "destructureInSignature" ].
End messages.

Inductive Edit : Type :=
  | replaceTextRange (range : nat * nat) (text : string)
  | remove (node : Node).

(** A report as the engine receives it.  [r_messageId] is absent on the
    reports that the rule sends with a bare [message]; [r_data] is
    [data.type]; [r_fix] is what the [fix] callback returns, absent when
    there is no callback or it returns nothing. *)
Record Report : Type := {
  r_node : Node;
  r_messageId : option string;
  r_message : string;
  r_data : option string;
  r_fix : option (list Edit)
}.

Record State : Type := {
  queue : sfcParams.t;
  contextSet : gset string;
  reports : list Report
}.

Definition initial : State :=
  {| queue := sfcParams.create; contextSet := ∅; reports := [] |}.

Definition set_queue (q : sfcParams.t) (st : State) : State :=
  {| queue := q; contextSet := contextSet st; reports := reports st |}.

Definition contextSet_add (x : string) (st : State) : State :=
  {| queue := queue st; contextSet := {[x]} ∪ contextSet st;
     reports := reports st |}.

Definition send (r : Report) (st : State) : State :=
  {| queue := queue st; contextSet := contextSet st;
     reports := reports st ++ [r] |}.

(** Modelled from the spec: the helper [report] of [../util/report] is
    not part of the sources at hand.  The specification says that a
    violation report carries a message key from the catalog, the
    offending node and the interpolation data; so the helper sends a
    report ([keyed]) with the key and the message it is called with, and
    the [node], [data.type] and [fix] of its last argument. *)
Definition keyed (message messageId : string) (node : Node)
    (data : option string) (fixes : option (list Edit)) : Report :=
  {| r_node := node; r_messageId := Some messageId;
     r_message := message; r_data := data; r_fix := fixes |}.

Definition report (message messageId : string) (node : Node)
    (data : option string) (fixes : option (list Edit)) (st : State) : State :=
  send (keyed message messageId node data fixes) st.

(** [context.report({ node, message })]: a report with a bare message. *)
Definition bare (node : Node) (message : string) : Report :=
  {| r_node := node; r_messageId := None; r_message := message;
     r_data := None; r_fix := None |}.

Definition context_report (node : Node) (message : string) (st : State)
    : State :=
  send (bare node message) st.

Definition defined {A : Type} (v : option A) : bool :=
  match v with Some _ => true | None => false end.

(** [v && x === v] for a name [v] that is a string or absent. *)
Definition names (v x : option string) : bool :=
  match v, x with
  | Some a, Some b => truthy v && String.eqb b a
  | _, _ => false
  end.

(** ** The traversal

    The engine walks the tree depth first and calls the handler
    registered for a node's type when it enters the node, and the
    [:exit] handler when it leaves it. *)

Inductive Event : Type :=
  | Enter (node : Node)
  | Leave (node : Node).

(** ** The rule: [create] *)

Section Rule.

Context {host : Host} {options : Options}.

Definition configuration : string :=
  if truthy options0 then default DEFAULT_OPTION options0
  else DEFAULT_OPTION.

Definition ignoreClassFields : bool :=
  match options1 with
  | Some o => match opt_ignoreClassFields o with
              | Some true => true
              | _ => false
              end
  | None => false
  end.

Definition destructureInSignature : string :=
  match options1 with
  | Some o => if truthy (opt_destructureInSignature o)
              then default "ignore" (opt_destructureInSignature o)
              else "ignore"
  | None => "ignore"
  end.

Definition handleStatelessComponent (node : Node) (st : State) : State :=
  let params := evalParams (n_params node) in
  let SFCComponent := components_get (block (getScope node)) in
  if negb (defined SFCComponent) then st
  else
    let st := set_queue (sfcParams.push params (queue st)) st in
    if defined (params !! 0)
       && from_option destructuring false (params !! 0)
       && defined (components_get node)
       && String.eqb configuration "never"
    then
      report messages.noDestructPropsInSFCArg "noDestructPropsInSFCArg"
             node None None st
    else if defined (params !! 1)
            && from_option destructuring false (params !! 1)
            && defined (components_get node)
            && String.eqb configuration "never"
    then
      report messages.noDestructContextInSFCArg "noDestructContextInSFCArg"
             node None None st
    else st.

Definition handleStatelessComponentExit (node : Node) (st : State) : State :=
  let SFCComponent := components_get (block (getScope node)) in
  if defined SFCComponent then set_queue (sfcParams.pop (queue st)) st
  else st.

Definition contextSet_has (x : option string) (st : State) : bool :=
  match x with
  | Some s => bool_decide (s ∈ contextSet st)
  | None => false
  end.

Definition handleSFCUsage (node : Node) (st : State) : State :=
  let propsName := sfcParams.propsName (queue st) in
  let contextName := sfcParams.contextName (queue st) in
  let object_name := o_name (n_object node) in
  (* props.aProp *)
  let isPropUsed :=
    (names propsName object_name || names contextName object_name)
    && negb (isAssignmentLHS node) in
  let st :=
    if isPropUsed && String.eqb configuration "always"
    then report messages.useDestructAssignment "useDestructAssignment"
                node object_name None st
    else st in
  (* const foo = useContext(aContext); foo.aProp *)
  let isContextUsed :=
    contextSet_has object_name st && negb (isAssignmentLHS node) in
  if isContextUsed && String.eqb configuration "always"
  then context_report node
         ("Must use destructuring " +:+ default "undefined" object_name
            +:+ " assignment") st
  else st.

Definition isClassField (type : string) : bool :=
  String.eqb type "ClassProperty" || String.eqb type "PropertyDefinition".

(** The loop of [isInClassProperty], started at [curNode]. *)
Fixpoint isInClassProperty_from (curNode : Node) : bool :=
  if isClassField (n_type curNode) then true
  else match curNode with
       | mkNode _ _ _ (Some up) => isInClassProperty_from up
       | mkNode _ _ _ None => false
       end.

Definition isInClassProperty (node : Node) : bool :=
  match n_parent node with
  | Some curNode => isInClassProperty_from curNode
  | None => false
  end.

Definition handleClassUsage (node : Node) (st : State) : State :=
  let object := n_object node in
  (* this.props.Aprop || this.context.aProp || this.state.aState *)
  let isPropUsed :=
    is_str (o_type object) "MemberExpression"
    && is_str (o_type (o_object object)) "ThisExpression"
    && (is_str (o_name (o_property object)) "props"
        || is_str (o_name (o_property object)) "context"
        || is_str (o_name (o_property object)) "state")
    && negb (isAssignmentLHS node) in
  if isPropUsed && String.eqb configuration "always"
     && negb (ignoreClassFields && isInClassProperty node)
  then report messages.useDestructAssignment "useDestructAssignment"
              node (o_name (o_property object)) None st
  else st.

Definition hasHooks : bool := testReactVersion ">= 16.9".

(** The scope walk of the [MemberExpression] handler: the component of
    the nearest scope, from [scope] outward, whose block is one.  The
    test [scope.upper !== scope] of the source always passes on a chain
    that is a finite list, as it is here. *)
Fixpoint enclosingSFCComponent (scope : Scope) : option Component :=
  match components_get (block scope) with
  | Some c => Some c
  | None => match scope with
            | mkScope _ (Some up) _ => enclosingSFCComponent up
            | mkScope _ None _ => None
            end
  end.

Definition MemberExpressionHandler (node : Node) (st : State) : State :=
  let SFCComponent := enclosingSFCComponent (getScope node) in
  let st := if defined SFCComponent then handleSFCUsage node st else st in
  let classComponent := getParentComponent node in
  if defined classComponent then handleClassUsage node st else st.

(** The [fix] callback of the [destructureInSignature] report. *)
Definition signatureFix (SFCComponent : Component) (node : Node)
    : option (list Edit) :=
  match n_params (c_node SFCComponent) !! 0 with
  | None => None
  | Some param =>
      let replaceRange :=
        (fst (n_range param),
         match n_typeAnnotation param with
         | Some annotation => fst (n_range annotation)
         | None => snd (n_range param)
         end) in
      id ← n_id node;
      declaration ← n_parent node;
      Some [replaceTextRange replaceRange (getText id); remove declaration]
  end.

Definition VariableDeclaratorHandler (node : Node) (st : State) : State :=
  let classComponent := getParentComponent node in
  let SFCComponent := components_get (block (getScope node)) in
  let destructuring :=
    defined (n_init node) && is_str (o_type (n_id node)) "ObjectPattern" in
  let identifier :=
    defined (n_init node) && is_str (o_type (n_id node)) "Identifier" in
  (* let {foo} = props; *)
  let destructuringSFC :=
    destructuring && is_str (o_name (n_init node)) "props" in
  (* let {foo} = useContext(aContext); *)
  let destructuringUseContext :=
    hasHooks && destructuring
    && is_str (o_name (o_callee (n_init node))) "useContext" in
  (* let foo = useContext(aContext); *)
  let assignUseContext :=
    hasHooks && identifier
    && is_str (o_name (o_callee (n_init node))) "useContext" in
  (* let {foo} = this.props; *)
  let destructuringClass :=
    destructuring
    && is_str (o_type (o_object (n_init node))) "ThisExpression"
    && (is_str (o_name (o_property (n_init node))) "props"
        || is_str (o_name (o_property (n_init node))) "context"
        || is_str (o_name (o_property (n_init node))) "state") in
  let st :=
    if defined SFCComponent && assignUseContext
    then match o_name (n_id node) with
         | Some x => contextSet_add x st
         | None => st
         end
    else st in
  let st :=
    if defined SFCComponent && destructuringUseContext
       && String.eqb configuration "never"
    then context_report node
           ("Must never use destructuring "
              +:+ default "undefined" (o_name (o_callee (n_init node)))
              +:+ " assignment") st
    else st in
  let st :=
    if defined SFCComponent && destructuringSFC
       && String.eqb configuration "never"
    then report messages.noDestructAssignment "noDestructAssignment"
                node (o_name (n_init node)) None st
    else st in
  let st :=
    if defined classComponent && destructuringClass
       && String.eqb configuration "never"
       && negb (ignoreClassFields
                && from_option isClassField false (o_type (n_parent node)))
    then report messages.noDestructAssignment "noDestructAssignment"
                node (o_name (o_property (n_init node))) None st
    else st in
  match SFCComponent with
  | Some component =>
      if destructuringSFC
         && String.eqb configuration "always"
         && String.eqb destructureInSignature "always"
         && is_str (o_name (n_init node)) "props"
      then
        let scopeSetProps := scope_set (getScope node) !! "props" in
        match option_map references scopeSetProps with
        | None => st
        | Some propsRefs =>
            (* Skip if props is used elsewhere *)
            if Nat.ltb 1 (length propsRefs) then st
            else report messages.destructureInSignature "destructureInSignature"
                        node None (signatureFix component node) st
        end
      else st
  | None => st
  end.

Definition isFunction (node : Node) : bool :=
  match n_shape node with FunctionNode _ _ => true | _ => false end.

Definition visit (e : Event) (st : State) : State :=
  match e with
  | Enter node =>
      match n_shape node with
      | FunctionNode _ _ => handleStatelessComponent node st
      | MemberExpression _ _ => MemberExpressionHandler node st
      | VariableDeclaratorNode _ _ => VariableDeclaratorHandler node st
      | _ => st
      end
  | Leave node =>
      match n_shape node with
      | FunctionNode _ _ => handleStatelessComponentExit node st
      | _ => st
      end
  end.

Definition run (es : list Event) (st : State) : State :=
  fold_left (fun st e => visit e st) es st.

(** The test that guards both the push and the pop. *)
Definition tracked (node : Node) : bool :=
  isFunction node && defined (components_get (block (getScope node))).

End Rule.

(** ** A walk with a registry that changes

    The registry behind [components.get] is filled while the engine
    walks the file, so each event is run with the host as it answers at
    that moment. *)

Section ChangingRegistry.

Context {options : Options}.

Definition visitIn (he : Host * Event) (st : State) : State :=
  @visit (fst he) options (snd he) st.

Definition runIn (w : list (Host * Event)) (st : State) : State :=
  fold_left (fun st he => visitIn he st) w st.

End ChangingRegistry.

(** The test that guards the push and the pop, with the host of the
    moment. *)
Definition trackedIn (hn : Host * Node) : bool :=
  @tracked (fst hn) (snd hn).

(** The frames of the functions among [opened] that were tracked when
    they were entered. *)
Definition framesIn (opened : list (Host * Node)) : sfcParams.t :=
  map (fun hn => evalParams (n_params (snd hn))) (List.filter trackedIn opened).

(** A syntax tree as the engine walks it, each node with the host at the
    moment it is entered and at the moment it is left. *)
#[local] Unset Elimination Schemes.

Inductive WalkTree : Type :=
  | WNode (node : Node) (entering leaving : Host) (children : list WalkTree).

#[local] Set Elimination Schemes.

Fixpoint walk (t : WalkTree) : list (Host * Event) :=
  match t with
  | WNode node entering leaving children =>
      (entering, Enter node) :: flat_map walk children
        ++ [(leaving, Leave node)]
  end.

(** The nodes entered and not yet left after the events [w], innermost
    first, each with the host of the moment it was entered, starting
    from the open nodes [acc]. *)
Fixpoint open_in (w : list (Host * Event)) (acc : list (Host * Node))
    : list (Host * Node) :=
  match w with
  | [] => acc
  | (h, Enter node) :: w => open_in w ((h, node) :: acc)
  | (_, Leave _) :: w => open_in w (tail acc)
  end.

(** The registry is steady on a tree when, for every node of the tree,
    the test that guards the push and the pop answers the same when the
    node is entered and when it is left. *)
#[local] Unset Elimination Schemes.

Inductive steady : WalkTree -> Prop :=
  | steady_node (node : Node) (entering leaving : Host)
                (children : list WalkTree) :
      trackedIn (entering, node) = trackedIn (leaving, node) ->
      Forall steady children ->
      steady (WNode node entering leaving children).

#[local] Set Elimination Schemes.

Section SteadyNotions.

Context {options : Options}.

(** A complete walk restores the stack and the open nodes. *)
Definition restoresIn (w : list (Host * Event)) : Prop :=
  forall st acc,
    queue (runIn w st) = queue st /\ open_in w acc = acc.

(** After any initial part of a walk, the stack holds, above what was
    there, the frames of the nodes opened and still open. *)
Definition followsIn (w : list (Host * Event)) : Prop :=
  forall pre rest st acc,
    w = pre ++ rest ->
    exists opened,
      open_in pre acc = opened ++ acc
      /\ queue (runIn pre st) = framesIn opened ++ queue st.

End SteadyNotions.

(** ** Notions used to state the properties *)

(** Slot [i] of a frame is a plain identifier, not a destructuring
    pattern, with the name [s]. *)
Definition plain_named (i : nat) (frame : list ParameterDescriptor)
    (s : string) : Prop :=
  exists p, frame !! i = Some p /\ destructuring p = false
            /\ name p = Some s /\ s <> "".

(** [s] is the name in slot [i] of the frontmost frame of [queue] that
    has a plain named slot [i]. *)
Definition frontmost (i : nat) (queue : sfcParams.t) (s : string) : Prop :=
  exists before frame after,
    queue = before ++ frame :: after
    /\ (forall f s', In f before -> ~ plain_named i f s')
    /\ plain_named i frame s.

(** The chain of [parent] links above a node, nearest first. *)
Fixpoint ancestors_from (curNode : Node) : list Node :=
  curNode ::
    match curNode with
    | mkNode _ _ _ (Some up) => ancestors_from up
    | mkNode _ _ _ None => []
    end.

Definition ancestors (node : Node) : list Node :=
  match n_parent node with
  | Some up => ancestors_from up
  | None => []
  end.

Definition inClassField (node : Node) : Prop :=
  exists a, In a (ancestors node)
            /\ (n_type a = "ClassProperty" \/ n_type a = "PropertyDefinition").

Definition hasKey (key : string) (r : Report) : bool :=
  is_str (r_messageId r) key.

(** A report that carries a key of the catalog. *)
Definition catalogued (r : Report) : Prop :=
  exists key, r_messageId r = Some key /\ In key messages.keys.

(** A handler step that only sends reports of a given kind. *)
Definition sends (ok : Report -> Prop) (st st' : State) : Prop :=
  exists added, reports st' = reports st ++ added /\ Forall ok added.

(** The two reports that the rule sends with a bare message and no key:
    for a member access on a name bound to a [useContext] result, and for
    a pattern bound to a [useContext] result. *)
Definition hookReport (r : Report) : Prop :=
  r_messageId r = None
  /\ ((exists x, r_message r = "Must use destructuring " +:+ x +:+ " assignment")
      \/ r_message r = "Must never use destructuring useContext assignment").

(** A report with a key of the catalog or, when [P] holds, one of the two
    bare reports. *)
Definition allowed (P : Prop) (r : Report) : Prop :=
  catalogued r \/ (hookReport r /\ P).

(** ** Sample programs

    Small syntax trees, with a host that answers for them, on which the
    handlers can be run. *)

Module Sample.

Definition ident (s : string) (r : nat * nat) : Node :=
  mkNode (Identifier s) r None None.

Definition node (shape : Shape) (r : nat * nat) (up : Node) : Node :=
  mkNode shape r None (Some up).

(** The nearest function at or above a node, else the topmost node. *)
Fixpoint scopeBlock (n : Node) : Node :=
  if isFunction n then n
  else match n with
       | mkNode _ _ _ (Some up) => scopeBlock up
       | mkNode _ _ _ None => n
       end.

(** A host for a file whose functions are all components; [vars] are the
    variables of every function scope, [inClass] says whether nodes lie
    in a class component, and [hooks] is the answer of the version test.
    An access is an assignment target when its parent is an assignment
    expression; the programs here have no access on the right-hand side
    of one. *)
Definition host (vars : gmap string ScopeVariable) (inClass hooks : bool)
    : Host :=
  {| components_get n :=
       if isFunction n then Some {| c_node := n |} else None;
     getScope n := mkScope (scopeBlock n) None vars;
     getParentComponent n :=
       if inClass then Some {| c_node := scopeBlock n |} else None;
     isAssignmentLHS n :=
       from_option (fun t => String.eqb t "AssignmentExpression")
                   false (o_type (n_parent n));
     testReactVersion _ := hooks;
     getText _ := "{ x }" |}.

Definition always : Options :=
  {| options0 := None; options1 := None |}.

Definition never : Options :=
  {| options0 := Some "never"; options1 := None |}.

Definition alwaysInSignature : Options :=
  {| options0 := Some "always";
     options1 := Some {| opt_ignoreClassFields := None;
                         opt_destructureInSignature := Some "always" |} |}.

Definition alwaysIgnoreClassFields : Options :=
  {| options0 := Some "always";
     options1 := Some {| opt_ignoreClassFields := Some true;
                         opt_destructureInSignature := None |} |}.

(** [function Comp(props) { return props.x; }] *)
Definition Comp : Node :=
  mkNode (FunctionNode FunctionDeclaration [ident "props" (14, 19)])
         (0, 40) None None.

Definition CompBody : Node := node (OtherNode "BlockStatement") (21, 40) Comp.

Definition propsX : Node :=
  node (MemberExpression (ident "props" (30, 35)) (ident "x" (36, 37)))
       (30, 37)
       (node (OtherNode "ReturnStatement") (23, 38) CompBody).

(** [props.x = 5] in the same body. *)
Definition propsXWritten : Node :=
  node (MemberExpression (ident "props" (23, 28)) (ident "x" (29, 30)))
       (23, 30)
       (node (OtherNode "AssignmentExpression") (23, 34) CompBody).

(** [const { x } = props;] in the same body. *)
Definition xOfProps : Node :=
  node (VariableDeclaratorNode (mkNode ObjectPattern (29, 34) None None)
                               (Some (ident "props" (37, 42))))
       (29, 42)
       (node (OtherNode "VariableDeclaration") (23, 43) CompBody).

Definition propsUsedOnce : gmap string ScopeVariable :=
  {[ "props" := {| references := [ident "props" (37, 42)] |} ]}.

Definition propsUsedTwice : gmap string ScopeVariable :=
  {[ "props" := {| references := [ident "props" (37, 42);
                                  ident "props" (60, 65)] |} ]}.

(** [function Pair({ a }, { b }) {}] *)
Definition Pair : Node :=
  mkNode (FunctionNode FunctionDeclaration
            [mkNode ObjectPattern (14, 19) None None;
             mkNode ObjectPattern (21, 26) None None])
         (0, 30) None None.

(** [const foo = useContext(Ctx);] and [foo.value] in the body of [Comp]. *)
Definition fooOfContext : Node :=
  node (VariableDeclaratorNode
          (ident "foo" (29, 32))
          (Some (mkNode (CallExpression (ident "useContext" (35, 45)))
                        (35, 50) None None)))
       (29, 50)
       (node (OtherNode "VariableDeclaration") (23, 51) CompBody).

Definition fooValue : Node :=
  node (MemberExpression (ident "foo" (59, 62)) (ident "value" (63, 68)))
       (59, 68)
       (node (OtherNode "ReturnStatement") (52, 69) CompBody).

(** [const { x } = useContext(Ctx);] in the body of [Comp]. *)
Definition xOfContext : Node :=
  node (VariableDeclaratorNode
          (mkNode ObjectPattern (29, 34) None None)
          (Some (mkNode (CallExpression (ident "useContext" (37, 47)))
                        (37, 52) None None)))
       (29, 52)
       (node (OtherNode "VariableDeclaration") (23, 53) CompBody).

(** [this.props.x] in the [render] method of a class, and in a class
    field initializer. *)
Definition thisPropsX (up : Node) : Node :=
  node (MemberExpression
          (mkNode (MemberExpression (mkNode ThisExpression (40, 44) None None)
                                    (ident "props" (45, 50)))
                  (40, 50) None None)
          (ident "x" (51, 52)))
       (40, 52) up.

Definition ClassBody : Node :=
  node (OtherNode "ClassBody") (10, 80)
       (mkNode (OtherNode "ClassDeclaration") (0, 80) None None).

Definition inRender : Node :=
  thisPropsX
    (node (OtherNode "ReturnStatement") (33, 53)
       (node (OtherNode "BlockStatement") (31, 55)
          (node (FunctionNode FunctionExpression []) (28, 55)
             (node (OtherNode "MethodDefinition") (22, 55) ClassBody)))).

Definition inClassFieldInitializer : Node :=
  thisPropsX (node (OtherNode "ClassProperty") (22, 53) ClassBody).

(** [function Ctx(props, { b }) {}] *)
Definition Ctx : Node :=
  mkNode (FunctionNode FunctionDeclaration
            [ident "props" (13, 18);
             mkNode ObjectPattern (20, 25) None None])
         (0, 30) None None.

(** Hosts for the programs above. *)
Definition plain : Host := host ∅ false true.

Definition withoutHooks : Host := host ∅ false false.

Definition classy : Host := host ∅ true true.

Definition usedOnce : Host := host propsUsedOnce false true.

Definition usedTwice : Host := host propsUsedTwice false true.

(** The state on entering [Comp] from the initial state. *)
Definition inComp (h : Host) (o : Options) : State :=
  @handleStatelessComponent h o Comp initial.

(** The walk of [Comp] up to the access [foo.value], past the declarator
    of [foo]. *)
Definition toFooValue : list Event :=
  [Enter Comp; Enter fooOfContext; Leave fooOfContext; Enter fooValue].

End Sample.

(** ** Further notions, for the properties beyond the stack and the
    member accesses *)

(** The chain of scopes from a scope outward, nearest first. *)
Fixpoint scope_chain (scope : Scope) : list Scope :=
  scope ::
    match scope with
    | mkScope _ (Some up) _ => scope_chain up
    | mkScope _ None _ => []
    end.


(** The reports that belong to the mode [always]. *)
Definition alwaysReport (r : Report) : Prop :=
  r_messageId r = Some "useDestructAssignment"
  \/ r_messageId r = Some "destructureInSignature"
  \/ (r_messageId r = None
      /\ exists x,
           r_message r = "Must use destructuring " +:+ x +:+ " assignment").

(** The reports that belong to the mode [never]. *)
Definition neverReport (r : Report) : Prop :=
  r_messageId r = Some "noDestructPropsInSFCArg"
  \/ r_messageId r = Some "noDestructContextInSFCArg"
  \/ r_messageId r = Some "noDestructAssignment"
  \/ (r_messageId r = None
      /\ r_message r = "Must never use destructuring useContext assignment").

Section Notions.

Context {host : Host} {options : Options}.

(** A report sent while visiting [node]: it points at [node], belongs to
    the configured mode, and has a fix only if it is the
    [destructureInSignature] report. *)
Definition reportAt (node : Node) (r : Report) : Prop :=
  r_node r = node
  /\ ((configuration = "always" /\ alwaysReport r)
      \/ (configuration = "never" /\ neverReport r))
  /\ (r_fix r <> None -> r_messageId r = Some "destructureInSignature").

(** [decl] is a declarator [x = useContext(...)], or
    [x = new useContext(...)], at which the handler adds [x] to the set
    of context identifiers. *)
Definition bindsContext (decl : Node) (x : string) : Prop :=
  hasHooks = true
  /\ defined (components_get (block (getScope decl))) = true
  /\ exists idn call callee,
       n_shape decl = VariableDeclaratorNode idn (Some call)
       /\ n_shape idn = Identifier x
       /\ n_callee call = Some callee
       /\ n_name callee = Some "useContext".

End Notions.

(** Further sample programs. *)
Module Cases.

Definition thisProps : Node :=
  mkNode (MemberExpression (mkNode ThisExpression (40, 44) None None)
                           (Sample.ident "props" (45, 50)))
         (40, 50) None None.

(** [const { x } = this.props;] below [up]. *)
Definition xOfThisProps (up : Node) : Node :=
  Sample.node (VariableDeclaratorNode (mkNode ObjectPattern (30, 35) None None)
                                      (Some thisProps))
              (30, 50)
              (Sample.node (OtherNode "VariableDeclaration") (24, 51) up).

(** The declarator in an arrow function that initializes a class field. *)
Definition inFieldArrow : Node :=
  xOfThisProps
    (Sample.node (OtherNode "BlockStatement") (22, 53)
       (Sample.node (FunctionNode ArrowFunctionExpression []) (16, 53)
          (Sample.node (OtherNode "ClassProperty") (12, 54)
                       Sample.ClassBody))).

(** [function Bare() { var props; const { x } = props; }] *)
Definition Bare : Node :=
  mkNode (FunctionNode FunctionDeclaration []) (0, 50) None None.

Definition xOfPropsInBare : Node :=
  Sample.node (VariableDeclaratorNode (mkNode ObjectPattern (36, 41) None None)
                                      (Some (Sample.ident "props" (44, 49))))
              (36, 49)
              (Sample.node (OtherNode "VariableDeclaration") (30, 50)
                 (Sample.node (OtherNode "BlockStatement") (16, 52) Bare)).

(** [let x;] in the body of [Comp]. *)
Definition xAlone : Node :=
  Sample.node (VariableDeclaratorNode (Sample.ident "x" (27, 28)) None)
              (27, 28)
              (Sample.node (OtherNode "VariableDeclaration") (23, 29)
                           Sample.CompBody).

(** [function (e) { return props.x; }] in the body of [Comp], and the
    access [props.x] in it. *)
Definition onClick : Node :=
  Sample.node (FunctionNode FunctionExpression [Sample.ident "e" (31, 32)])
              (21, 60)
              (Sample.node (OtherNode "ExpressionStatement") (21, 61)
                           Sample.CompBody).


(** The walk of [Comp] up to the declarator [const { x } = props;]. *)
Definition toXOfProps : list Event :=
  [Enter Sample.Comp; Enter Sample.xOfProps].

Definition neverIgnoringClassFields : Options :=
  {| options0 := Some "never";
     options1 := Some {| opt_ignoreClassFields := Some true;
                         opt_destructureInSignature := None |} |}.

(** [props.x++] in the body of [Comp]: the access [props.x] in it. *)
Definition propsXUpdated : Node :=
  Sample.node (MemberExpression (Sample.ident "props" (23, 28))
                                (Sample.ident "x" (29, 30)))
              (23, 30)
              (Sample.node (OtherNode "UpdateExpression") (23, 32)
                 (Sample.node (OtherNode "ExpressionStatement") (23, 33)
                              Sample.CompBody)).




(** A host whose registry holds the functions with the ranges [known]. *)
Definition registry (known : list (nat * nat)) : Host :=
  {| components_get n :=
       if existsb (fun r => Nat.eqb (fst r) (fst (n_range n))
                            && Nat.eqb (snd r) (snd (n_range n))) known
       then Some {| c_node := n |}
       else None;
     getScope n := mkScope (Sample.scopeBlock n) None ∅;
     getParentComponent _ := None;
     isAssignmentLHS n :=
       from_option (fun t => String.eqb t "AssignmentExpression")
                   false (o_type (n_parent n));
     testReactVersion _ := true;
     getText _ := "{ x }" |}.

(** The registry before and after the nested function [onClick] of
    [Comp] is registered. *)
Definition onlyComp : Host := registry [(0, 40)].

Definition compAndOnClick : Host := registry [(0, 40); (21, 60)].

(** [function Comp(props) { (function (e) { ... }); return props.x; }]
    walked while the registry comes to hold the nested function between
    its enter and its exit: up to the exit of the nested function, and
    then the access [props.x]. *)
Definition registeredInside : list (Host * Event) :=
  [(onlyComp, Enter Sample.Comp); (onlyComp, Enter onClick);
   (compAndOnClick, Leave onClick)].

Definition thenPropsX : list (Host * Event) :=
  [(compAndOnClick, Enter Sample.propsX)].

(** The same events with the registry holding both functions all along. *)
Definition registeredBefore : list (Host * Event) :=
  [(compAndOnClick, Enter Sample.Comp); (compAndOnClick, Enter onClick);
   (compAndOnClick, Leave onClick); (compAndOnClick, Enter Sample.propsX)].

(** [function Comp(props) { const foo = useContext(Ctx);
    return foo.value; }] as the engine walks it, with a registry that
    does not change. *)
Definition CompTree : WalkTree :=
  WNode Sample.Comp Sample.plain Sample.plain
    [WNode Sample.CompBody Sample.plain Sample.plain
       [WNode Sample.fooOfContext Sample.plain Sample.plain [];
        WNode Sample.fooValue Sample.plain Sample.plain []]].

(** The walk of [CompTree] up to the declarator of [foo], and the rest. *)
Definition toFooDeclarator : list (Host * Event) :=
  [(Sample.plain, Enter Sample.Comp); (Sample.plain, Enter Sample.CompBody);
   (Sample.plain, Enter Sample.fooOfContext)].

Definition fromFooDeclarator : list (Host * Event) :=
  [(Sample.plain, Leave Sample.fooOfContext);
   (Sample.plain, Enter Sample.fooValue);
   (Sample.plain, Leave Sample.fooValue);
   (Sample.plain, Leave Sample.CompBody); (Sample.plain, Leave Sample.Comp)].

End Cases.

(** ** Properties of the stack of component parameters *)

Lemma truthy_Some (s : string) : truthy (Some s) = true <-> s <> "".
Proof.
  unfold truthy. rewrite negb_true_iff.
  destruct (String.eqb_spec s ""); split; congruence.
Qed.

Lemma truthy_inv (v : option string) :
  truthy v = true -> exists s, v = Some s /\ s <> "".
Proof.
  destruct v as [s|]; [|discriminate].
  intros H. exists s. split; [reflexivity | now apply truthy_Some].
Qed.

Lemma named_slot_plain (i : nat) (frame : list ParameterDescriptor) :
  sfcParams.named_slot i frame = true <-> exists s, plain_named i frame s.
Proof.
  unfold sfcParams.named_slot, plain_named. split.
  - destruct (frame !! i) as [p|]; [|discriminate].
    rewrite andb_true_iff, negb_true_iff. intros [Hd Ht].
    destruct (truthy_inv _ Ht) as (s & Hs & Hne). eauto 8.
  - intros (s & p & -> & Hd & Hn & Hne).
    rewrite Hd, Hn. simpl. now apply truthy_Some.
Qed.

Lemma named_slot_not_plain (i : nat) (frame : list ParameterDescriptor) :
  sfcParams.named_slot i frame = false <-> forall s, ~ plain_named i frame s.
Proof.
  rewrite <- not_true_iff_false, named_slot_plain. firstorder.
Qed.

(** [Array.prototype.find] returns the first element that passes. *)
Lemma find_first {A : Type} (f : A -> bool) (l : list A) (x : A) :
  List.find f l = Some x <->
  exists before after,
    l = before ++ x :: after
    /\ (forall y, In y before -> f y = false) /\ f x = true.
Proof.
  induction l as [|a l IH]; simpl.
  - split; [discriminate|]. intros ([|? ?] & ? & ? & _); discriminate.
  - destruct (f a) eqn:Ha.
    + split.
      * intros [= ->]. exists [], l. simpl. tauto.
      * intros ([|b before] & after & Heq & Hall & Hx); simpl in Heq.
        -- congruence.
        -- injection Heq as Hab Hl. subst b.
           rewrite (Hall a) in Ha by now left. discriminate.
    + rewrite IH. split.
      * intros (before & after & -> & Hall & Hx).
        exists (a :: before), after. simpl. split; [reflexivity|].
        split; [|assumption]. intros y [<-|Hy]; auto.
      * intros ([|b before] & after & Heq & Hall & Hx); simpl in Heq.
        -- injection Heq as Hab Hl. congruence.
        -- injection Heq as Hab Hl. subst b l. exists before, after.
           split; [reflexivity|]. split; [|assumption].
           intros y Hy. apply Hall. now right.
Qed.

Lemma slot_name_frontmost (i : nat) (queue : sfcParams.t) (s : string) :
  sfcParams.slot_name i queue = Some s <-> frontmost i queue s.
Proof.
  unfold sfcParams.slot_name, frontmost. split.
  - destruct (List.find _ queue) as [found|] eqn:Hfind; [|discriminate].
    simpl. apply find_first in Hfind
      as (before & after & -> & Hall & Hfound).
    apply named_slot_plain in Hfound as (s' & p & Hp & Hd & Hn & Hne).
    rewrite Hp. simpl. rewrite Hn. intros [= ->].
    exists before, found, after. split; [reflexivity|]. split.
    + intros f s0 Hf. now apply named_slot_not_plain, Hall.
    + exists p. auto.
  - intros (before & frame & after & -> & Hall & Hplain).
    assert (List.find (sfcParams.named_slot i) (before ++ frame :: after)
            = Some frame) as ->.
    { apply find_first. exists before, after. split; [reflexivity|]. split.
      - intros f Hf. apply named_slot_not_plain. intros s0. now apply Hall.
      - apply named_slot_plain. eauto. }
    destruct Hplain as (p & Hp & _ & Hn & _). simpl. rewrite Hp. exact Hn.
Qed.

Lemma slot_name_absent (i : nat) (queue : sfcParams.t) :
  sfcParams.slot_name i queue = None <->
  forall f s, In f queue -> ~ plain_named i f s.
Proof.
  split.
  - intros Hnone f s Hf Hplain.
    apply in_split in Hf as (l1 & l2 & ->).
    assert (exists s0, frontmost i (l1 ++ f :: l2) s0) as [s0 Hs0];
      [|apply slot_name_frontmost in Hs0; congruence].
    clear Hnone. revert s Hplain. induction l1 as [|g l1 IH]; intros s Hplain.
    + exists s, [], f, l2. simpl. tauto.
    + destruct (sfcParams.named_slot i g) eqn:Hg.
      * apply named_slot_plain in Hg as [s1 Hs1].
        exists s1, [], g, (l1 ++ f :: l2). simpl. tauto.
      * destruct (IH s Hplain) as (s1 & before & frame & after & Heq & Hall & Hp).
        exists s1, (g :: before), frame, after. simpl. rewrite Heq.
        split; [reflexivity|]. split; [|assumption].
        intros f0 s' [<-|Hf0]; [|now apply Hall].
        now apply named_slot_not_plain.
  - intros Hall. destruct (sfcParams.slot_name i queue) as [s|] eqn:Hs;
      [|reflexivity].
    apply slot_name_frontmost in Hs
      as (before & frame & after & -> & _ & Hplain).
    exfalso. apply (Hall frame s); [|assumption].
    apply in_or_app. right. now left.
Qed.

Lemma slot_name_nonempty (i : nat) (queue : sfcParams.t) (s : string) :
  sfcParams.slot_name i queue = Some s -> s <> "".
Proof.
  intros H. apply slot_name_frontmost in H
    as (_ & _ & _ & _ & _ & p & _ & _ & _ & Hne).
  exact Hne.
Qed.

Lemma lookup_map {A B : Type} (f : A -> B) (l : list A) (i : nat) :
  map f l !! i = option_map f (l !! i).
Proof.
  revert i. induction l as [|a l IH]; intros [|i]; simpl; auto.
Qed.

(** What [evalParams] puts in slot [i]: a plain named slot exactly for an
    identifier parameter with a name. *)
Lemma evalParams_plain_named (params : list Node) (i : nat) (s : string) :
  plain_named i (evalParams params) s <->
  exists param, params !! i = Some param
                /\ n_shape param = Identifier s /\ s <> "".
Proof.
  unfold plain_named, evalParams. setoid_rewrite lookup_map. split.
  - intros (p & Hp & Hd & Hn & Hne).
    destruct (params !! i) as [param|]; [|discriminate].
    injection Hp as <-. simpl in *. exists param.
    unfold n_type, n_name in *.
    destruct (n_shape param) as [x| | | | | |[]| | |]; simpl in *;
      try discriminate; try (destruct (String.eqb _ _); discriminate).
    injection Hn as ->. auto.
  - intros (param & -> & Hshape & Hne). eexists. split; [reflexivity|].
    unfold n_type, n_name. rewrite Hshape. simpl. auto.
Qed.

(** C5. [propsName()] (slot 0) and [contextName()] (slot 1) return the
    name held by the frontmost frame of the stack whose slot is a plain
    identifier with a name, and nothing when no frame has such a slot; a
    frame pushed for a parameter list whose parameter in that slot is a
    destructuring pattern never supplies a name. *)
Theorem propsName_contextName_frontmost (queue : sfcParams.t) :
  (forall s, sfcParams.propsName queue = Some s <-> frontmost 0 queue s)
  /\ (sfcParams.propsName queue = None <->
      forall f s, In f queue -> ~ plain_named 0 f s)
  /\ (forall s, sfcParams.contextName queue = Some s <-> frontmost 1 queue s)
  /\ (sfcParams.contextName queue = None <->
      forall f s, In f queue -> ~ plain_named 1 f s)
  /\ (forall params i param s,
        params !! i = Some param ->
        n_type param = "ObjectPattern" ->
        ~ plain_named i (evalParams params) s).
Proof.
  unfold sfcParams.propsName, sfcParams.contextName.
  repeat split; try apply slot_name_frontmost; try apply slot_name_absent.
  intros params i param s Hi Hty Hplain.
  apply evalParams_plain_named in Hplain as (param' & Hi' & Hshape & _).
  assert (param' = param) as -> by congruence.
  unfold n_type in Hty. rewrite Hshape in Hty. discriminate.
Qed.

(** ** Properties of the handlers *)

Section Properties.

Context {host : Host} {options : Options}.

Lemma names_same (v : option string) (x : string) :
  v = Some x -> x <> "" -> names v (Some x) = true.
Proof.
  intros -> Hne. unfold names. rewrite (proj2 (truthy_Some x) Hne).
  simpl. apply String.eqb_refl.
Qed.

Lemma names_None (v : option string) : names v None = false.
Proof. now destruct v. Qed.

Lemma named_not_member (n : Node) (x : string) :
  n_name n = Some x -> String.eqb (n_type n) "MemberExpression" = false.
Proof.
  unfold n_name, n_type. destruct (n_shape n); intros [=]; reflexivity.
Qed.

(** What [handleSFCUsage] does to the reports; it leaves the rest of the
    state alone. *)
Lemma handleSFCUsage_reports (node : Node) (st : State) :
  let object_name := o_name (n_object node) in
  let used :=
    (names (sfcParams.propsName (queue st)) object_name
     || names (sfcParams.contextName (queue st)) object_name)
    && negb (isAssignmentLHS node) && String.eqb configuration "always" in
  let known :=
    contextSet_has object_name st && negb (isAssignmentLHS node)
    && String.eqb configuration "always" in
  reports (handleSFCUsage node st) =
    reports st
    ++ (if used
        then [keyed messages.useDestructAssignment "useDestructAssignment"
                    node object_name None]
        else [])
    ++ (if known
        then [bare node ("Must use destructuring "
                           +:+ default "undefined" object_name
                           +:+ " assignment")]
        else [])
  /\ queue (handleSFCUsage node st) = queue st
  /\ contextSet (handleSFCUsage node st) = contextSet st.
Proof.
  simpl. unfold handleSFCUsage.
  set (used := (_ || _) && _ && _).
  assert (forall r, contextSet_has (o_name (n_object node)) (send r st)
                    = contextSet_has (o_name (n_object node)) st) as Hhas
    by reflexivity.
  destruct used; simpl; unfold report; rewrite ?Hhas;
    destruct (contextSet_has _ st && _ && _); simpl;
    rewrite <- ?app_assoc, ?app_nil_r; auto.
Qed.

(** C7, as the code has it.  A member access for which the helper
    [isAssignmentLHS] answers yes, as it does for the left-hand side of
    an assignment expression, draws no report
    from the check against the props and context names, from the check
    against the set of context identifiers, or from the check of
    [this.props], [this.context] and [this.state]; whatever the mode. *)
Theorem assignment_target_never_reported (node : Node) (st : State) :
  isAssignmentLHS node = true ->
  reports (handleSFCUsage node st) = reports st
  /\ reports (handleClassUsage node st) = reports st
  /\ reports (MemberExpressionHandler node st) = reports st.
Proof.
  intros Hlhs.
  assert (forall st', reports (handleSFCUsage node st') = reports st') as Hsfc.
  { intros st'. destruct (handleSFCUsage_reports node st') as [-> _].
    rewrite Hlhs. simpl. rewrite !andb_false_r. simpl.
    now rewrite app_nil_r. }
  assert (forall st', handleClassUsage node st' = st') as Hclass.
  { intros st'. unfold handleClassUsage. rewrite Hlhs. simpl.
    now rewrite !andb_false_r. }
  split; [apply Hsfc|]. split; [now rewrite Hclass|].
  unfold MemberExpressionHandler.
  destruct (defined (getParentComponent node)); rewrite ?Hclass;
    destruct (defined (enclosingSFCComponent _)); auto.
Qed.

Lemma handleClassUsage_identifier (node : Node) (st : State) (obj : Node)
    (x : string) :
  n_object node = Some obj -> n_name obj = Some x ->
  handleClassUsage node st = st.
Proof.
  intros Hobj Hname. unfold handleClassUsage. rewrite Hobj. simpl.
  now rewrite (named_not_member _ _ Hname).
Qed.

(** C3. Under [always], a member access that does not write, lies in a
    scope chain that reaches a tracked component, and whose object is an
    identifier named as [propsName()] or [contextName()] currently
    answer, draws exactly one [useDestructAssignment] report, at the
    access and naming the object; the only other report it can draw is
    the bare one for a name held in the set of context identifiers. *)
Theorem member_access_on_props_reported (node : Node) (st : State)
    (obj : Node) (x : string) :
  configuration = "always" ->
  defined (enclosingSFCComponent (getScope node)) = true ->
  n_object node = Some obj ->
  n_name obj = Some x ->
  sfcParams.propsName (queue st) = Some x
  \/ sfcParams.contextName (queue st) = Some x ->
  isAssignmentLHS node = false ->
  let found :=
    keyed messages.useDestructAssignment "useDestructAssignment"
          node (Some x) None in
  let added :=
    found :: (if bool_decide (x ∈ contextSet st)
              then [bare node ("Must use destructuring " +:+ x
                                 +:+ " assignment")]
              else []) in
  reports (MemberExpressionHandler node st) = reports st ++ added
  /\ List.filter (hasKey "useDestructAssignment") added = [found].
Proof.
  intros Hmode Hsfc Hobj Hname Hslot Hlhs. simpl. split.
  - unfold MemberExpressionHandler. rewrite Hsfc.
    assert (handleClassUsage node (handleSFCUsage node st)
            = handleSFCUsage node st) as Hclass
      by (eapply handleClassUsage_identifier; eassumption).
    destruct (defined (getParentComponent node)); rewrite ?Hclass;
      destruct (handleSFCUsage_reports node st) as [-> _];
      rewrite Hobj, Hlhs, Hmode; simpl; rewrite Hname;
      (assert (names (sfcParams.propsName (queue st)) (Some x)
               || names (sfcParams.contextName (queue st)) (Some x) = true)
        as -> by (apply orb_true_iff;
                  destruct Hslot as [H|H]; [left|right];
                  (apply names_same;
                   [exact H | exact (slot_name_nonempty _ _ _ H)])));
      simpl; rewrite !andb_true_r; reflexivity.
  - destruct (bool_decide _); reflexivity.
Qed.

Lemma isClassField_true (t : string) :
  isClassField t = true <-> t = "ClassProperty" \/ t = "PropertyDefinition".
Proof.
  unfold isClassField. rewrite orb_true_iff, !String.eqb_eq. reflexivity.
Qed.

Lemma isInClassProperty_from_ancestors :
  forall curNode,
    isInClassProperty_from curNode = true <->
    exists a, In a (ancestors_from curNode) /\ isClassField (n_type a) = true.
Proof.
  fix IH 1. intros [shape r ta up].
  set (cur := mkNode shape r ta up).
  change (isInClassProperty_from cur)
    with (if isClassField (n_type cur) then true
          else match up with
               | Some up' => isInClassProperty_from up'
               | None => false
               end).
  change (ancestors_from cur)
    with (cur :: match up with
                 | Some up' => ancestors_from up'
                 | None => []
                 end).
  destruct (isClassField (n_type cur)) eqn:Hcur.
  - split; [|reflexivity]. intros _. exists cur. split; [now left|assumption].
  - destruct up as [up'|].
    + rewrite (IH up'). split.
      * intros (a & Ha & Hf). exists a. split; [now right|assumption].
      * intros (a & [<-|Ha] & Hf); [congruence|]. eauto.
    + split; [discriminate|].
      intros (a & [<-|[]] & Hf). congruence.
Qed.

Lemma isInClassProperty_inClassField (node : Node) :
  isInClassProperty node = true <-> inClassField node.
Proof.
  unfold isInClassProperty, inClassField, ancestors.
  destruct (n_parent node) as [up|].
  - rewrite isInClassProperty_from_ancestors.
    now setoid_rewrite isClassField_true.
  - split; [discriminate|]. now intros (a & [] & _).
Qed.

Lemma handleSFCUsage_no_name (node : Node) (st : State) :
  o_name (n_object node) = None ->
  reports (handleSFCUsage node st) = reports st.
Proof.
  intros Hnone. destruct (handleSFCUsage_reports node st) as [-> _].
  rewrite Hnone, !names_None. simpl. now rewrite app_nil_r.
Qed.

(** C4. A member access on [this.props], [this.context] or [this.state]
    in a class component, not an assignment target: under [always] it
    draws a [useDestructAssignment] report naming the property, unless
    [ignoreClassFields] is set and an ancestor of the access is a class
    field, in which case it draws none; under [never] it draws none. *)
Theorem this_member_access_reported (node : Node) (st : State)
    (obj this prop : Node) (p : string) :
  n_object node = Some obj ->
  n_shape obj = MemberExpression this prop ->
  n_shape this = ThisExpression ->
  n_name prop = Some p ->
  p = "props" \/ p = "context" \/ p = "state" ->
  defined (getParentComponent node) = true ->
  isAssignmentLHS node = false ->
  let found :=
    keyed messages.useDestructAssignment "useDestructAssignment"
          node (Some p) None in
  (configuration = "always" ->
   (~ (ignoreClassFields = true /\ inClassField node) ->
    reports (MemberExpressionHandler node st) = reports st ++ [found])
   /\ (ignoreClassFields = true /\ inClassField node ->
       reports (MemberExpressionHandler node st) = reports st))
  /\ (configuration = "never" ->
      reports (MemberExpressionHandler node st) = reports st).
Proof.
  intros Hobj Hshape Hthis Hprop Hp Hclass Hlhs. simpl.
  assert (o_name (n_object node) = None) as Hnone.
  { rewrite Hobj. simpl. unfold n_name. now rewrite Hshape. }
  assert (forall st', reports (if defined (enclosingSFCComponent (getScope node))
                               then handleSFCUsage node st' else st')
                      = reports st') as Hsfc.
  { intros st'. destruct (defined (enclosingSFCComponent _)); [|reflexivity].
    now apply handleSFCUsage_no_name. }
  assert (is_str (o_type (n_object node)) "MemberExpression"
          && is_str (o_type (o_object (n_object node))) "ThisExpression"
          && (is_str (o_name (o_property (n_object node))) "props"
              || is_str (o_name (o_property (n_object node))) "context"
              || is_str (o_name (o_property (n_object node))) "state")
          && negb (isAssignmentLHS node) = true) as Hused.
  { rewrite Hobj, Hlhs. simpl.
    unfold n_type, n_object, n_property. rewrite Hshape. simpl.
    unfold n_type. rewrite Hthis, Hprop. simpl.
    destruct Hp as [->| [->| ->]]; reflexivity. }
  assert (o_name (o_property (n_object node)) = Some p) as Hpname.
  { rewrite Hobj. simpl. unfold n_property. now rewrite Hshape. }
  unfold MemberExpressionHandler. rewrite Hclass.
  unfold handleClassUsage. rewrite Hused, Hpname. simpl.
  split; [intros ->; split|intros ->].
  - intros Hnot. simpl.
    destruct ignoreClassFields eqn:Hi; simpl.
    + destruct (isInClassProperty node) eqn:Hin; simpl.
      * exfalso. apply Hnot. split; [reflexivity|].
        now apply isInClassProperty_inClassField.
      * unfold report. simpl. now rewrite Hsfc.
    + unfold report. simpl. now rewrite Hsfc.
  - intros [Hi Hin]. apply isInClassProperty_inClassField in Hin.
    rewrite Hi, Hin. simpl. apply Hsfc.
  - simpl. apply Hsfc.
Qed.

Lemma evalParams_lookup (params : list Node) (i : nat) :
  evalParams params !! i
  = option_map (fun param =>
                  {| destructuring := String.eqb (n_type param) "ObjectPattern";
                     name := if String.eqb (n_type param) "Identifier"
                             then n_name param else None |})
               (params !! i).
Proof. apply lookup_map. Qed.

(** C1, as the code has it.  For a function node that is a registered
    component and whose scope's block the classifier recognises, entered
    under [never]: when its first parameter is an object pattern, the one
    report sent is [noDestructPropsInSFCArg], whatever the second
    parameter is; when its first parameter is not an object pattern and
    its second one is, the one report sent is
    [noDestructContextInSFCArg]. *)
Theorem component_argument_reports (node : Node) (st : State) :
  defined (components_get (block (getScope node))) = true ->
  defined (components_get node) = true ->
  configuration = "never" ->
  (forall p,
     n_params node !! 0 = Some p -> n_type p = "ObjectPattern" ->
     reports (handleStatelessComponent node st)
     = reports st ++ [keyed messages.noDestructPropsInSFCArg
                            "noDestructPropsInSFCArg" node None None])
  /\ (forall p q,
        n_params node !! 0 = Some p -> n_type p <> "ObjectPattern" ->
        n_params node !! 1 = Some q -> n_type q = "ObjectPattern" ->
        reports (handleStatelessComponent node st)
        = reports st ++ [keyed messages.noDestructContextInSFCArg
                               "noDestructContextInSFCArg" node None None]).
Proof.
  intros Hscope Hcomp Hmode. unfold handleStatelessComponent.
  rewrite Hscope, Hcomp, Hmode. simpl. rewrite !evalParams_lookup. split.
  - intros p H0 Hp. rewrite H0. simpl. rewrite Hp. reflexivity.
  - intros p q H0 Hp H1 Hq. rewrite H0, H1. simpl.
    apply String.eqb_neq in Hp. rewrite Hp, Hq. reflexivity.
Qed.

(** *** The stack during a traversal *)

Lemma handleStatelessComponent_queue (node : Node) (st : State) :
  queue (handleStatelessComponent node st)
  = if defined (components_get (block (getScope node)))
    then evalParams (n_params node) :: queue st
    else queue st.
Proof.
  unfold handleStatelessComponent.
  destruct (defined (components_get (block _))); simpl; [|reflexivity].
  repeat match goal with
         | |- context [if ?b then _ else _] => destruct b
         end; reflexivity.
Qed.

Lemma handleStatelessComponentExit_queue (node : Node) (st : State) :
  queue (handleStatelessComponentExit node st)
  = if defined (components_get (block (getScope node)))
    then tail (queue st)
    else queue st.
Proof.
  unfold handleStatelessComponentExit. now destruct (defined _).
Qed.

Lemma handleClassUsage_state (node : Node) (st : State) :
  queue (handleClassUsage node st) = queue st
  /\ contextSet (handleClassUsage node st) = contextSet st.
Proof.
  unfold handleClassUsage.
  match goal with |- context [if ?b then _ else _] => destruct b end; auto.
Qed.

Lemma MemberExpressionHandler_state (node : Node) (st : State) :
  queue (MemberExpressionHandler node st) = queue st
  /\ contextSet (MemberExpressionHandler node st) = contextSet st.
Proof.
  unfold MemberExpressionHandler.
  destruct (defined (getParentComponent node));
    [destruct (handleClassUsage_state node
                 (if defined (enclosingSFCComponent (getScope node))
                  then handleSFCUsage node st else st)) as [-> ->]|];
    destruct (defined (enclosingSFCComponent _)); auto;
    destruct (handleSFCUsage_reports node st) as (_ & -> & ->); auto.
Qed.

Lemma VariableDeclaratorHandler_queue (node : Node) (st : State) :
  queue (VariableDeclaratorHandler node st) = queue st.
Proof.
  unfold VariableDeclaratorHandler.
  repeat match goal with
         | |- context [match ?b with _ => _ end] => destruct b
         end; reflexivity.
Qed.

Lemma visit_queue (e : Event) (st : State) :
  queue (visit e st)
  = match e with
    | Enter node =>
        if tracked node then evalParams (n_params node) :: queue st
        else queue st
    | Leave node => if tracked node then tail (queue st) else queue st
    end.
Proof.
  unfold tracked, isFunction. destruct e as [node|node]; simpl;
    destruct (n_shape node); simpl; try reflexivity.
  - apply MemberExpressionHandler_state.
  - apply VariableDeclaratorHandler_queue.
  - apply handleStatelessComponent_queue.
  - apply handleStatelessComponentExit_queue.
Qed.

Lemma run_single (e : Event) (st : State) : run [e] st = visit e st.
Proof. reflexivity. Qed.

Lemma run_cons (e : Event) (es : list Event) (st : State) :
  run (e :: es) st = run es (visit e st).
Proof. reflexivity. Qed.

Lemma run_app (es es' : list Event) (st : State) :
  run (es ++ es') st = run es' (run es st).
Proof. apply fold_left_app. Qed.

(** *** Reports and the set of context identifiers, handler by handler *)

Lemma named_fields (n : Node) (x : string) :
  n_name n = Some x ->
  n_callee n = None /\ n_object n = None /\ n_property n = None.
Proof.
  unfold n_name, n_callee, n_object, n_property.
  destruct (n_shape n); intros [=]; auto.
Qed.

Lemma called_fields (n c : Node) :
  n_callee n = Some c ->
  n_name n = None /\ n_object n = None /\ n_property n = None.
Proof.
  unfold n_name, n_callee, n_object, n_property.
  destruct (n_shape n); intros [=]; auto.
Qed.

Lemma is_str_eq (v : option string) (lit : string) :
  is_str v lit = true <-> v = Some lit.
Proof.
  destruct v as [s|]; simpl; [|split; discriminate].
  rewrite String.eqb_eq. split; congruence.
Qed.

Lemma catalogued_keyed (message key : string) (node : Node)
    (data : option string) (fixes : option (list Edit)) :
  In key messages.keys -> catalogued (keyed message key node data fixes).
Proof. intros Hin. exists key. auto. Qed.

Lemma sends_refl (ok : Report -> Prop) (st : State) : sends ok st st.
Proof. exists []. now rewrite app_nil_r. Qed.

Lemma sends_trans (ok : Report -> Prop) (st st' st'' : State) :
  sends ok st st' -> sends ok st' st'' -> sends ok st st''.
Proof.
  intros (a & Ha & Hoka) (b & Hb & Hokb). exists (a ++ b).
  rewrite Hb, Ha, app_assoc. split; [reflexivity|]. now apply Forall_app.
Qed.

Lemma sends_send (ok : Report -> Prop) (r : Report) (st : State) :
  ok r -> sends ok st (send r st).
Proof. intros Hr. exists [r]. auto. Qed.

Lemma sends_same_reports (ok : Report -> Prop) (st st' : State) :
  reports st' = reports st -> sends ok st st'.
Proof. intros H. exists []. now rewrite app_nil_r. Qed.

Lemma sends_weaken (ok ok' : Report -> Prop) (st st' : State) :
  (forall r, ok r -> ok' r) -> sends ok st st' -> sends ok' st st'.
Proof.
  intros Himp (a & Ha & Hoka). exists a. split; [assumption|].
  eapply Forall_impl; eassumption.
Qed.

Ltac split_conditions :=
  repeat match goal with
         | H : _ && _ = true |- _ => apply andb_true_iff in H as [? ?]
         end.

Lemma handleStatelessComponent_sends (node : Node) (st : State) :
  sends catalogued st (handleStatelessComponent node st)
  /\ contextSet (handleStatelessComponent node st) = contextSet st.
Proof.
  unfold handleStatelessComponent.
  destruct (defined (components_get (block _))); simpl;
    [|split; [apply sends_refl | reflexivity]].
  repeat match goal with
         | |- context [if ?b then _ else _] => destruct b
         end;
    (split; [|reflexivity]);
    try (apply sends_same_reports; reflexivity);
    (eexists [_]; split; [reflexivity|]; constructor; [|constructor];
     apply catalogued_keyed; simpl; tauto).
Qed.

Lemma handleStatelessComponentExit_same (node : Node) (st : State) :
  reports (handleStatelessComponentExit node st) = reports st
  /\ contextSet (handleStatelessComponentExit node st) = contextSet st.
Proof.
  unfold handleStatelessComponentExit. now destruct (defined _).
Qed.

Lemma handleSFCUsage_sends (node : Node) (st : State) :
  sends (allowed (exists x, x ∈ contextSet st)) st (handleSFCUsage node st).
Proof.
  destruct (handleSFCUsage_reports node st) as [Hr _].
  eexists. split; [exact Hr|]. apply Forall_app. split.
  - destruct (_ && _ && _); [|constructor].
    constructor; [|constructor]. left.
    apply catalogued_keyed. simpl. tauto.
  - destruct (contextSet_has _ st && _ && _) eqn:Hknown; [|constructor].
    constructor; [|constructor].
    split_conditions. unfold contextSet_has in *.
    destruct (o_name (n_object node)) as [x|]; [|discriminate].
    right. split.
    + split; [reflexivity|]. left. exists x. reflexivity.
    + exists x. eapply bool_decide_eq_true_1. eassumption.
Qed.

Lemma handleClassUsage_sends (node : Node) (st : State) :
  sends catalogued st (handleClassUsage node st).
Proof.
  unfold handleClassUsage.
  match goal with |- context [if ?b then _ else _] => destruct b end;
    [|apply sends_refl].
  apply sends_send, catalogued_keyed. simpl. tauto.
Qed.

Lemma MemberExpressionHandler_sends (node : Node) (st : State) :
  sends (allowed (exists x, x ∈ contextSet st)) st
        (MemberExpressionHandler node st).
Proof.
  unfold MemberExpressionHandler.
  eapply sends_trans with
    (st' := if defined (enclosingSFCComponent (getScope node))
            then handleSFCUsage node st else st).
  - destruct (defined (enclosingSFCComponent _));
      [apply handleSFCUsage_sends | apply sends_refl].
  - destruct (defined (getParentComponent node)); [|apply sends_refl].
    eapply sends_weaken; [|apply handleClassUsage_sends]. now left.
Qed.

Lemma VariableDeclaratorHandler_contextSet (node : Node) (st : State) :
  contextSet (VariableDeclaratorHandler node st) = contextSet st
  \/ (hasHooks = true
      /\ exists x, contextSet (VariableDeclaratorHandler node st)
                   = {[x]} ∪ contextSet st).
Proof.
  unfold VariableDeclaratorHandler.
  destruct (defined (components_get _)
            && (hasHooks && (_ && is_str _ "Identifier") && _)) eqn:Hadd.
  - split_conditions.
    destruct (o_name (n_id node)) as [x|];
      [right; split; [assumption|exists x] | left];
      repeat match goal with
             | |- context [match ?b with _ => _ end] => destruct b
             end; reflexivity.
  - left.
    repeat match goal with
           | |- context [match ?b with _ => _ end] => destruct b
           end; reflexivity.
Qed.

Lemma sends_then_send (ok : Report -> Prop) (r : Report) (st st' : State) :
  sends ok st st' -> ok r -> sends ok st (send r st').
Proof.
  intros H Hr. eapply sends_trans; [exact H|]. now apply sends_send.
Qed.

Lemma sends_then_add (ok : Report -> Prop) (x : string) (st st' : State) :
  sends ok st st' -> sends ok st (contextSet_add x st').
Proof.
  intros H. eapply sends_trans; [exact H|]. now apply sends_same_reports.
Qed.

Lemma VariableDeclaratorHandler_sends (node : Node) (st : State) :
  sends (allowed (hasHooks = true)) st (VariableDeclaratorHandler node st).
Proof.
  unfold VariableDeclaratorHandler, report, context_report.
  repeat match goal with
         | |- context [match ?b with _ => _ end] => destruct b eqn:?
         end;
    repeat first
      [ apply sends_refl
      | apply sends_then_add
      | apply sends_then_send;
        [| first [ left; apply catalogued_keyed; simpl; tauto
                 | right; split_conditions; split; [|assumption];
                   split; [reflexivity|]; right;
                   match goal with
                   | H : is_str _ "useContext" = true |- _ =>
                       apply is_str_eq in H; simpl; rewrite H
                   end; reflexivity ] ] ].
Qed.

Lemma visit_contextSet (e : Event) (st : State) :
  contextSet (visit e st) = contextSet st
  \/ (hasHooks = true
      /\ exists x, contextSet (visit e st) = {[x]} ∪ contextSet st).
Proof.
  destruct e as [node|node]; simpl; destruct (n_shape node); auto.
  - left. apply MemberExpressionHandler_state.
  - apply VariableDeclaratorHandler_contextSet.
  - left. apply handleStatelessComponent_sends.
  - left. apply handleStatelessComponentExit_same.
Qed.

Lemma visit_sends (e : Event) (st : State) :
  sends (allowed ((exists x, x ∈ contextSet st) \/ hasHooks = true))
        st (visit e st).
Proof.
  destruct e as [node|node]; simpl; destruct (n_shape node);
    try apply sends_refl.
  - eapply sends_weaken; [|apply MemberExpressionHandler_sends].
    intros r [Hr|[Hr HP]]; [now left | right; auto].
  - eapply sends_weaken; [|apply VariableDeclaratorHandler_sends].
    intros r [Hr|[Hr HP]]; [now left | right; auto].
  - eapply sends_weaken; [|apply handleStatelessComponent_sends]. now left.
  - apply sends_same_reports, handleStatelessComponentExit_same.
Qed.

(** The set of context identifiers never loses a name. *)
Lemma run_contextSet_grows (es : list Event) (st : State) :
  contextSet st ⊆ contextSet (run es st).
Proof.
  revert st. induction es as [|e es IH]; intros st; [reflexivity|].
  rewrite run_cons. etransitivity; [|apply IH].
  destruct (visit_contextSet e st) as [->|(_ & x & ->)]; set_solver.
Qed.

Lemma run_sends (es : list Event) (st : State) :
  sends (allowed True) st (run es st).
Proof.
  revert st. induction es as [|e es IH]; intros st; [apply sends_refl|].
  rewrite run_cons. eapply sends_trans; [|apply IH].
  eapply sends_weaken; [|apply visit_sends].
  intros r [Hr|[Hr _]]; [now left | now right].
Qed.

(** Without hooks the set stays empty and every report has a key. *)
Lemma run_without_hooks (es : list Event) (st : State) :
  hasHooks = false -> contextSet st = ∅ ->
  contextSet (run es st) = ∅ /\ sends catalogued st (run es st).
Proof.
  intros Hhooks. revert st.
  induction es as [|e es IH]; intros st Hempty;
    [split; [assumption | apply sends_refl]|].
  rewrite run_cons.
  assert (contextSet (visit e st) = ∅) as Hempty'.
  { destruct (visit_contextSet e st) as [->|[Hh _]]; congruence. }
  destruct (IH _ Hempty') as [Hset Hsends]. split; [assumption|].
  eapply sends_trans; [|exact Hsends].
  eapply sends_weaken; [|apply visit_sends].
  intros r [Hr|[_ [[x Hx]|Hh]]]; [assumption| |congruence].
  rewrite Hempty in Hx. set_solver.
Qed.

(** C8. When the version test says that hooks are not supported: a
    declarator whose initializer is a call, such as one to [useContext],
    changes nothing, so it sends no report; no declarator adds a name to
    the set of context identifiers; and along any traversal the set
    stays empty and no report is one of the two bare reports for
    [useContext] values. *)
Theorem without_hooks_no_context_patterns :
  hasHooks = false ->
  (forall node init callee st,
     n_init node = Some init -> n_callee init = Some callee ->
     VariableDeclaratorHandler node st = st)
  /\ (forall node st,
        contextSet (VariableDeclaratorHandler node st) = contextSet st)
  /\ (forall es,
        contextSet (run es initial) = ∅
        /\ forall r, In r (reports (run es initial)) -> ~ hookReport r).
Proof.
  intros Hhooks. split; [|split].
  - intros node init callee st Hinit Hcallee.
    destruct (called_fields _ _ Hcallee) as (Hn & Ho & Hp).
    unfold VariableDeclaratorHandler. rewrite Hhooks, Hinit.
    cbn [o_name o_type o_object o_property o_callee].
    rewrite Hn, Ho, Hp. simpl.
    rewrite !andb_false_r. simpl.
    now destruct (components_get _).
  - intros node st.
    destruct (VariableDeclaratorHandler_contextSet node st) as [H|[H _]];
      congruence.
  - intros es.
    destruct (run_without_hooks es initial Hhooks eq_refl)
      as [Hset (added & Hadded & Hok)].
    split; [assumption|]. intros r Hin [Hbare _].
    rewrite Hadded in Hin. simpl in Hin.
    rewrite Forall_forall in Hok. apply list_elem_of_In in Hin.
    destruct (Hok r Hin) as (key & Hkey & _). congruence.
Qed.

(** Every report sent along a traversal either
    carries a key of the catalog, or is one of the two reports sent with
    a bare message and no key: [Must use destructuring <name> assignment]
    for a member access on a name bound to a [useContext] result, and
    [Must never use destructuring useContext assignment]. *)
Theorem reports_keyed_or_hook (es : list Event) (r : Report) :
  In r (reports (run es initial)) -> catalogued r \/ hookReport r.
Proof.
  destruct (run_sends es initial) as (added & -> & Hok). simpl.
  intros Hin. rewrite Forall_forall in Hok. apply list_elem_of_In in Hin.
  destruct (Hok r Hin) as [Hr|[Hr _]]; auto.
Qed.

Lemma MemberExpressionHandler_keeps (node : Node) (st : State) (r : Report) :
  In r (reports (if defined (enclosingSFCComponent (getScope node))
                 then handleSFCUsage node st else st)) ->
  In r (reports (MemberExpressionHandler node st)).
Proof.
  intros Hin. unfold MemberExpressionHandler.
  destruct (defined (getParentComponent node)); [|assumption].
  destruct (handleClassUsage_sends node
              (if defined (enclosingSFCComponent (getScope node))
               then handleSFCUsage node st else st)) as (added & -> & _).
  apply in_or_app. now left.
Qed.

(** C10. The set of context identifiers only grows along a traversal.
    A declarator that binds an identifier to a [useContext] call in a
    function-style component adds the name whatever the mode; the name
    stays through any later events, leaving the component included; and
    under [always] a later member access on an object of that name, in a
    scope chain that reaches any tracked component, is reported. *)
Theorem context_identifiers_persist (decl idn call callee : Node)
    (x : string) (st : State) :
  hasHooks = true ->
  defined (components_get (block (getScope decl))) = true ->
  n_shape decl = VariableDeclaratorNode idn (Some call) ->
  n_shape idn = Identifier x ->
  n_shape call = CallExpression callee ->
  n_name callee = Some "useContext" ->
  (forall es st0, contextSet st0 ⊆ contextSet (run es st0))
  /\ x ∈ contextSet (VariableDeclaratorHandler decl st)
  /\ (forall es, x ∈ contextSet (run es (VariableDeclaratorHandler decl st)))
  /\ (forall es access obj,
        configuration = "always" ->
        defined (enclosingSFCComponent (getScope access)) = true ->
        n_object access = Some obj ->
        n_name obj = Some x ->
        isAssignmentLHS access = false ->
        In (bare access ("Must use destructuring " +:+ x +:+ " assignment"))
           (reports (MemberExpressionHandler access
                       (run es (VariableDeclaratorHandler decl st))))).
Proof.
  intros Hhooks Hsfc Hdecl Hidn Hcall Hcallee.
  assert (x ∈ contextSet (VariableDeclaratorHandler decl st)) as Hadded.
  { assert (n_init decl = Some call /\ n_id decl = Some idn) as [Hi Hp].
    { unfold n_init, n_id. now rewrite Hdecl. }
    assert (o_type (Some idn) = Some "Identifier"
            /\ o_name (Some idn) = Some x) as [Hty Hx].
    { unfold o_type, o_name, n_type, n_name. now rewrite Hidn. }
    assert (o_name (o_callee (Some call)) = Some "useContext") as Huse.
    { unfold o_callee, n_callee. now rewrite Hcall. }
    unfold VariableDeclaratorHandler.
    rewrite Hhooks, Hsfc, Hi, Hp, Hty, Hx, Huse. simpl.
    repeat match goal with
           | |- context [match ?b with _ => _ end] => destruct b
           end; simpl; set_solver. }
  assert (forall es, x ∈ contextSet (run es (VariableDeclaratorHandler decl st)))
    as Hstays.
  { intros es. eapply elem_of_weaken; [exact Hadded|].
    apply run_contextSet_grows. }
  split; [intros es st0; apply run_contextSet_grows|].
  split; [assumption|]. split; [assumption|].
  intros es access obj Hmode Haccess Hobj Hname Hlhs.
  apply MemberExpressionHandler_keeps. rewrite Haccess.
  destruct (handleSFCUsage_reports access
              (run es (VariableDeclaratorHandler decl st))) as [-> _].
  rewrite Hobj, Hlhs, Hmode. simpl. rewrite Hname. simpl.
  rewrite (bool_decide_eq_true_2 _ (Hstays es)). simpl.
  apply in_or_app. right. apply in_or_app. right. now left.
Qed.


End Properties.

(** ** The properties on the sample programs *)

(** C1 as stated fails: [function Pair({ a }, { b }) {}] is a registered
    component entered under [never] whose second parameter is a
    destructuring pattern, and no [noDestructContextInSFCArg] report is
    sent for it; the report for the first parameter is the only one. *)
Lemma both_patterns_one_report :
  defined (@components_get Sample.plain Sample.Pair) = true
  /\ @configuration Sample.never = "never"
  /\ o_type (n_params Sample.Pair !! 1) = Some "ObjectPattern"
  /\ reports (@handleStatelessComponent Sample.plain Sample.never
                Sample.Pair initial)
     = [keyed messages.noDestructPropsInSFCArg "noDestructPropsInSFCArg"
              Sample.Pair None None]
  /\ ~ (exists r,
          In r (reports (@handleStatelessComponent Sample.plain Sample.never
                           Sample.Pair initial))
          /\ r_messageId r = Some "noDestructContextInSFCArg").
Proof.
  repeat (split; [reflexivity|]).
  intros (r & [<-|[]] & Hkey). discriminate.
Qed.

Lemma component_argument_reports_witness :
  defined (@components_get Sample.plain
             (block (@getScope Sample.plain Sample.Ctx))) = true
  /\ defined (@components_get Sample.plain Sample.Ctx) = true
  /\ @configuration Sample.never = "never"
  /\ reports (@handleStatelessComponent Sample.plain Sample.never
                Sample.Ctx initial)
     = [keyed messages.noDestructContextInSFCArg "noDestructContextInSFCArg"
              Sample.Ctx None None].
Proof.
  repeat (split; [reflexivity|]).
  refine (proj2 (@component_argument_reports Sample.plain Sample.never
                   Sample.Ctx initial eq_refl eq_refl eq_refl)
            _ _ eq_refl _ eq_refl eq_refl).
  discriminate.
Defined.


Lemma member_access_on_props_reported_witness :
  @configuration Sample.always = "always"
  /\ defined (@enclosingSFCComponent Sample.plain
                (@getScope Sample.plain Sample.propsX)) = true
  /\ sfcParams.propsName (queue (Sample.inComp Sample.plain Sample.always))
     = Some "props"
  /\ @isAssignmentLHS Sample.plain Sample.propsX = false
  /\ reports (@MemberExpressionHandler Sample.plain Sample.always
                Sample.propsX (Sample.inComp Sample.plain Sample.always))
     = [keyed messages.useDestructAssignment "useDestructAssignment"
              Sample.propsX (Some "props") None].
Proof.
  repeat (split; [reflexivity|]).
  exact (proj1 (@member_access_on_props_reported Sample.plain Sample.always
                  Sample.propsX (Sample.inComp Sample.plain Sample.always)
                  (Sample.ident "props" (30, 35)) "props"
                  eq_refl eq_refl eq_refl eq_refl (or_introl eq_refl)
                  eq_refl)).
Defined.

Lemma this_member_access_reported_witness :
  defined (@getParentComponent Sample.classy Sample.inClassFieldInitializer)
  = true
  /\ @isAssignmentLHS Sample.classy Sample.inClassFieldInitializer = false
  /\ @configuration Sample.alwaysIgnoreClassFields = "always"
  /\ @ignoreClassFields Sample.alwaysIgnoreClassFields = true
  /\ inClassField Sample.inClassFieldInitializer
  /\ reports (@MemberExpressionHandler Sample.classy
                Sample.alwaysIgnoreClassFields
                Sample.inClassFieldInitializer initial)
     = [].
Proof.
  assert (inClassField Sample.inClassFieldInitializer) as Hin.
  { exists (Sample.node (OtherNode "ClassProperty") (22, 53) Sample.ClassBody).
    split; [left; reflexivity | left; reflexivity]. }
  repeat (split; [first [reflexivity | exact Hin]|]).
  exact (proj2 (proj1 (@this_member_access_reported Sample.classy
                         Sample.alwaysIgnoreClassFields
                         Sample.inClassFieldInitializer initial
                         (mkNode (MemberExpression
                                    (mkNode ThisExpression (40, 44) None None)
                                    (Sample.ident "props" (45, 50)))
                                 (40, 50) None None)
                         (mkNode ThisExpression (40, 44) None None)
                         (Sample.ident "props" (45, 50)) "props"
                         eq_refl eq_refl eq_refl eq_refl (or_introl eq_refl)
                         eq_refl eq_refl)
                  eq_refl)
           (conj eq_refl Hin)).
Defined.

Lemma assignment_target_never_reported_witness :
  @isAssignmentLHS Sample.plain Sample.propsXWritten = true
  /\ reports (@MemberExpressionHandler Sample.plain Sample.always
                Sample.propsXWritten
                (Sample.inComp Sample.plain Sample.always))
     = [].
Proof.
  split; [reflexivity|].
  exact (proj2 (proj2 (@assignment_target_never_reported Sample.plain
                         Sample.always Sample.propsXWritten
                         (Sample.inComp Sample.plain Sample.always)
                         eq_refl))).
Defined.

Lemma without_hooks_no_context_patterns_witness :
  @hasHooks Sample.withoutHooks = false
  /\ @VariableDeclaratorHandler Sample.withoutHooks Sample.never
       Sample.xOfContext (Sample.inComp Sample.withoutHooks Sample.never)
     = Sample.inComp Sample.withoutHooks Sample.never.
Proof.
  split; [reflexivity|].
  exact (proj1 (@without_hooks_no_context_patterns Sample.withoutHooks
                  Sample.never eq_refl)
           Sample.xOfContext
           (mkNode (CallExpression (Sample.ident "useContext" (37, 47)))
                   (37, 52) None None)
           (Sample.ident "useContext" (37, 47))
           (Sample.inComp Sample.withoutHooks Sample.never)
           eq_refl eq_refl).
Defined.

(** C9.  The code departs from it: under [always], with hooks available,
    the walk of [const foo = useContext(Ctx); return foo.value;] in a
    component sends one report, for [foo.value], with the text that the
    [useDestructAssignment] message gives and no key. *)
Lemma context_report_has_no_key :
  reports (@run Sample.plain Sample.always Sample.toFooValue initial)
  = [bare Sample.fooValue "Must use destructuring foo assignment"]
  /\ ~ (forall r,
          In r (reports (@run Sample.plain Sample.always
                           Sample.toFooValue initial)) ->
          exists key, r_messageId r = Some key /\ In key messages.keys).
Proof.
  assert (reports (@run Sample.plain Sample.always Sample.toFooValue initial)
          = [bare Sample.fooValue "Must use destructuring foo assignment"])
    as Hrun by (vm_compute; reflexivity).
  split; [exact Hrun|]. rewrite Hrun. intros Hall.
  destruct (Hall _ (or_introl eq_refl)) as (key & Hkey & _). discriminate.
Qed.

Lemma reports_keyed_or_hook_witness :
  In (bare Sample.fooValue "Must use destructuring foo assignment")
     (reports (@run Sample.plain Sample.always Sample.toFooValue initial))
  /\ (catalogued (bare Sample.fooValue "Must use destructuring foo assignment")
      \/ hookReport
           (bare Sample.fooValue "Must use destructuring foo assignment")).
Proof.
  assert (In (bare Sample.fooValue "Must use destructuring foo assignment")
             (reports (@run Sample.plain Sample.always Sample.toFooValue
                         initial))) as Hin
    by (vm_compute; left; reflexivity).
  split; [exact Hin|].
  exact (@reports_keyed_or_hook Sample.plain Sample.always Sample.toFooValue
           _ Hin).
Defined.

Lemma context_identifiers_persist_witness :
  @hasHooks Sample.plain = true
  /\ defined (@components_get Sample.plain
                (block (@getScope Sample.plain Sample.fooOfContext))) = true
  /\ "foo" ∈ contextSet (@run Sample.plain Sample.never
                           [Leave Sample.fooOfContext; Leave Sample.Comp]
                           (@VariableDeclaratorHandler Sample.plain
                              Sample.never Sample.fooOfContext
                              (Sample.inComp Sample.plain Sample.never))).
Proof.
  repeat (split; [reflexivity|]).
  exact (proj1 (proj2 (proj2 (@context_identifiers_persist Sample.plain
                                Sample.never Sample.fooOfContext
                                (Sample.ident "foo" (29, 32))
                                (mkNode (CallExpression
                                           (Sample.ident "useContext" (35, 45)))
                                        (35, 50) None None)
                                (Sample.ident "useContext" (35, 45)) "foo"
                                (Sample.inComp Sample.plain Sample.never)
                                eq_refl eq_refl eq_refl eq_refl eq_refl
                                eq_refl)))
           [Leave Sample.fooOfContext; Leave Sample.Comp]).
Defined.

(** The cases of the specification's examples that are not used above,
    by evaluation. *)
Example this_props_in_render_reported :
  reports (@MemberExpressionHandler Sample.classy Sample.always
             Sample.inRender initial)
  = [keyed messages.useDestructAssignment "useDestructAssignment"
           Sample.inRender (Some "props") None].
Proof. reflexivity. Qed.

Example props_used_twice_not_reported :
  reports (@VariableDeclaratorHandler Sample.usedTwice
             Sample.alwaysInSignature Sample.xOfProps initial)
  = [].
Proof. vm_compute. reflexivity. Qed.

Example pattern_argument_reported :
  reports (@handleStatelessComponent Sample.plain Sample.never
             Sample.Pair initial)
  = [keyed messages.noDestructPropsInSFCArg "noDestructPropsInSFCArg"
           Sample.Pair None None].
Proof. reflexivity. Qed.

Example context_pattern_reported_under_never :
  reports (@VariableDeclaratorHandler Sample.plain Sample.never
             Sample.xOfContext (Sample.inComp Sample.plain Sample.never))
  = [bare Sample.xOfContext
          "Must never use destructuring useContext assignment"].
Proof. vm_compute. reflexivity. Qed.

(** ** Further properties of the code *)

(** X1. [evalParams] gives one descriptor per parameter, in order: it is
    marked destructuring exactly for an object pattern, holds a name
    exactly for an identifier, and never both. *)
Theorem evalParams_descriptors (params : list Node) :
  length (evalParams params) = length params
  /\ forall i param,
       params !! i = Some param ->
       exists d,
         evalParams params !! i = Some d
         /\ (destructuring d = true <-> n_type param = "ObjectPattern")
         /\ (forall s, name d = Some s <-> n_shape param = Identifier s)
         /\ (destructuring d = true -> name d = None).
Proof.
  split; [apply length_map|].
  intros i param Hi. rewrite evalParams_lookup, Hi. simpl.
  eexists. split; [reflexivity|]. simpl.
  rewrite String.eqb_eq. split; [reflexivity|].
  unfold n_type, n_name.
  destruct (n_shape param) as [x| | | | | |[]|ty| |]; simpl.
  all: try (split; [intros s; split; intros [=]; subst; reflexivity
                   | intros [=]]).
  all: try (split; [intros s; split; intros [=] | reflexivity]).
  all: try reflexivity.
  destruct (String.eqb ty "Identifier");
    (split; [intros s; split; intros [=] | reflexivity]).
Qed.

Lemma slot_name_push (params : list Node) (queue : sfcParams.t) (i : nat) :
  sfcParams.slot_name i (sfcParams.push (evalParams params) queue)
  = match params !! i with
    | Some param =>
        match n_shape param with
        | Identifier s =>
            if String.eqb s "" then sfcParams.slot_name i queue else Some s
        | _ => sfcParams.slot_name i queue
        end
    | None => sfcParams.slot_name i queue
    end.
Proof.
  unfold sfcParams.slot_name, sfcParams.push. simpl.
  unfold sfcParams.named_slot at 1. rewrite evalParams_lookup.
  destruct (params !! i) as [param|] eqn:Hi; simpl; [|reflexivity].
  unfold n_type, n_name.
  destruct (n_shape param) as [x| | | | | |[]|ty| |] eqn:Hshape; simpl;
    try reflexivity.
  - destruct (String.eqb x ""); simpl; [reflexivity|].
    rewrite evalParams_lookup, Hi. simpl.
    unfold n_type, n_name. now rewrite Hshape.
  - destruct (String.eqb ty "ObjectPattern"); simpl; [reflexivity|].
    destruct (String.eqb ty "Identifier"); reflexivity.
Qed.

(** X2. After a push of the descriptors of a parameter list,
    [propsName()] is the name of the first parameter when that is an
    identifier with a name, and otherwise what it was before the push;
    likewise [contextName()] with the second parameter.  So a nested
    function with a destructured or missing parameter lets the outer name
    through, and one with a plain parameter hides it. *)
Theorem names_after_push (params : list Node) (queue : sfcParams.t) :
  let through (i : nat) :=
    match params !! i with
    | Some param =>
        match n_shape param with
        | Identifier s =>
            if String.eqb s "" then sfcParams.slot_name i queue else Some s
        | _ => sfcParams.slot_name i queue
        end
    | None => sfcParams.slot_name i queue
    end in
  sfcParams.propsName (sfcParams.push (evalParams params) queue) = through 0
  /\ sfcParams.contextName (sfcParams.push (evalParams params) queue)
     = through 1.
Proof. split; apply slot_name_push. Qed.

Ltac conditions :=
  repeat match goal with
         | H : _ && _ = true |- _ => apply andb_true_iff in H as [? ?]
         end;
  repeat match goal with
         | H : negb _ = true |- _ => apply negb_true_iff in H
         | H : String.eqb _ _ = true |- _ => apply String.eqb_eq in H
         | H : is_str _ _ = true |- _ => apply is_str_eq in H
         end.

Section FurtherProperties.

Context {host : Host} {options : Options}.

(** X3. Entering a function sends at most one report, and none at all
    unless the mode is [never], the function itself is a registered
    component, and the block of its scope is recognised; when the block
    of its scope is not recognised, neither entering nor leaving the
    function changes anything. *)
Theorem function_entry_reports (node : Node) (st : State) :
  (exists added,
     reports (handleStatelessComponent node st) = reports st ++ added
     /\ length added <= 1)
  /\ (configuration <> "never"
      \/ components_get node = None
      \/ components_get (block (getScope node)) = None ->
      reports (handleStatelessComponent node st) = reports st)
  /\ (components_get (block (getScope node)) = None ->
      handleStatelessComponent node st = st
      /\ handleStatelessComponentExit node st = st).
Proof.
  unfold handleStatelessComponent, handleStatelessComponentExit.
  split; [|split].
  - destruct (defined (components_get (block _))); simpl;
      [|exists []; split; [now rewrite app_nil_r | simpl; lia]].
    repeat match goal with
           | |- context [if ?b then _ else _] => destruct b
           end;
      first [ eexists [_]; split; [reflexivity | simpl; lia]
            | exists []; split; [now rewrite app_nil_r | simpl; lia] ].
  - intros [Hmode|[Hnode|Hscope]].
    + apply String.eqb_neq in Hmode. rewrite Hmode, !andb_false_r.
      now destruct (defined _).
    + rewrite Hnode. simpl. rewrite !andb_false_r. simpl.
      now destruct (defined _).
    + now rewrite Hscope.
  - intros ->. auto.
Qed.

(** X4. The handler of member accesses leaves the state as it is when
    the mode is not [always], and when the access lies neither in the
    scope chain of a function-style component nor in a class
    component. *)
Theorem member_access_left_alone (node : Node) (st : State) :
  configuration <> "always"
  \/ (enclosingSFCComponent (getScope node) = None
      /\ getParentComponent node = None) ->
  MemberExpressionHandler node st = st.
Proof.
  unfold MemberExpressionHandler.
  intros [Hmode|[-> ->]]; [|reflexivity].
  apply String.eqb_neq in Hmode.
  assert (handleSFCUsage node st = st) as Hsfc.
  { unfold handleSFCUsage. now rewrite Hmode, !andb_false_r. }
  assert (handleClassUsage node st = st) as Hclass.
  { unfold handleClassUsage. rewrite Hmode, andb_false_r. reflexivity. }
  destruct (defined (enclosingSFCComponent _)); rewrite ?Hsfc;
    destruct (defined (getParentComponent node)); auto.
Qed.

(** X5. The scope walk of the member-access handler answers with the
    component of the nearest scope, from the scope of the access outward,
    whose block is a component, and with nothing exactly when no scope
    of the chain has such a block. *)
Theorem enclosingSFCComponent_nearest :
  forall scope,
    (forall c,
       enclosingSFCComponent scope = Some c <->
       exists before s after,
         scope_chain scope = before ++ s :: after
         /\ (forall s', In s' before -> components_get (block s') = None)
         /\ components_get (block s) = Some c)
    /\ (enclosingSFCComponent scope = None <->
        forall s, In s (scope_chain scope) ->
                  components_get (block s) = None).
Proof.
  fix IH 1. intros [b up vars].
  set (scope := mkScope b up vars).
  change (enclosingSFCComponent scope)
    with (match components_get (block scope) with
          | Some c => Some c
          | None => match up with
                    | Some up' => enclosingSFCComponent up'
                    | None => None
                    end
          end).
  change (scope_chain scope)
    with (scope :: match up with
                   | Some up' => scope_chain up'
                   | None => []
                   end).
  destruct (components_get (block scope)) as [c0|] eqn:Hc0.
  - split.
    + intros c. split.
      * intros [= ->]. exists [], scope. eexists. simpl. split; [reflexivity|].
        split; [tauto|assumption].
      * intros ([|s0 before] & s & after & Heq & Hall & Hs); simpl in Heq.
        -- injection Heq as <- _. congruence.
        -- injection Heq as <- _.
           rewrite (Hall scope) in Hc0 by now left. discriminate.
    + split; [discriminate|]. intros Hall.
      rewrite (Hall scope) in Hc0 by now left. discriminate.
  - destruct up as [up'|].
    + destruct (IH up') as [Hsome Hnone]. split.
      * intros c. rewrite Hsome. split.
        -- intros (before & s & after & Heq & Hall & Hs).
           exists (scope :: before), s, after. simpl. rewrite Heq.
           split; [reflexivity|]. split; [|assumption].
           intros s' [<-|Hs']; auto.
        -- intros ([|s0 before] & s & after & Heq & Hall & Hs); simpl in Heq.
           ++ injection Heq as <- _. congruence.
           ++ injection Heq as <- Heq. exists before, s, after.
              split; [assumption|]. split; [|assumption].
              intros s' Hs'. apply Hall. now right.
      * rewrite Hnone. split.
        -- intros Hall s [<-|Hs]; auto.
        -- intros Hall s Hs. apply Hall. now right.
    + split.
      * intros c. split; [discriminate|].
        intros ([|s0 before] & s & after & Heq & Hall & Hs); simpl in Heq.
        -- injection Heq as <- _. congruence.
        -- injection Heq as _ Heq. now destruct before.
      * split; [|reflexivity]. intros _ s [<-|[]]. assumption.
Qed.

Lemma names_inv (v x : option string) :
  names v x = true -> exists s, v = Some s /\ x = Some s.
Proof.
  destruct v as [a|], x as [b|]; simpl; try discriminate.
  rewrite andb_true_iff, String.eqb_eq. intros [_ ->]. eauto.
Qed.

(** X6. The function-style check reports a member access only when its
    object is an identifier, the access is not an assignment target and
    the mode is [always]: the keyed report when the name is what
    [propsName()] or [contextName()] answers, the bare one when the name
    is in the set of context identifiers. *)
Theorem function_style_reports_only_named (node : Node) (st : State)
    (r : Report) :
  In r (reports (handleSFCUsage node st)) ->
  In r (reports st)
  \/ exists x,
       o_name (n_object node) = Some x
       /\ isAssignmentLHS node = false
       /\ configuration = "always"
       /\ ((r = keyed messages.useDestructAssignment "useDestructAssignment"
                      node (Some x) None
            /\ (sfcParams.propsName (queue st) = Some x
                \/ sfcParams.contextName (queue st) = Some x))
           \/ (r = bare node ("Must use destructuring " +:+ x
                                +:+ " assignment")
               /\ x ∈ contextSet st)).
Proof.
  destruct (handleSFCUsage_reports node st) as [-> _].
  intros Hin. apply in_app_or in Hin as [Hin|Hin]; [now left|].
  right. apply in_app_or in Hin as [Hin|Hin].
  - destruct (_ && _ && _) eqn:Hused; [|destruct Hin].
    destruct Hin as [<-|[]]. conditions.
    match goal with H : _ || _ = true |- _ =>
      apply orb_true_iff in H as [H|H];
      apply names_inv in H as (x & Hslot & Hname) end;
      exists x; rewrite Hname; auto 8.
  - destruct (contextSet_has _ st && _ && _) eqn:Hknown; [|destruct Hin].
    destruct Hin as [<-|[]]. conditions.
    unfold contextSet_has in *.
    destruct (o_name (n_object node)) as [x|]; [|discriminate].
    exists x. repeat (split; [assumption || reflexivity|]).
    right. split; [reflexivity|].
    eapply bool_decide_eq_true_1. eassumption.
Qed.

(** X7. The class-style check reports a member access only when its
    object is a member access on [this] whose property node has the name
    [props], [context] or [state] (as in [this.props], and also in
    [this.#props] and [this[props]], where the property node has that
    name too), the helper [isAssignmentLHS] says no, the mode is
    [always], and it is not the case that [ignoreClassFields] is set and
    the access lies in a class field; the report names the property. *)
Theorem class_style_reports_only_this (node : Node) (st : State)
    (r : Report) :
  In r (reports (handleClassUsage node st)) ->
  In r (reports st)
  \/ exists obj this prop p,
       n_object node = Some obj
       /\ n_shape obj = MemberExpression this prop
       /\ n_type this = "ThisExpression"
       /\ n_name prop = Some p
       /\ (p = "props" \/ p = "context" \/ p = "state")
       /\ isAssignmentLHS node = false
       /\ configuration = "always"
       /\ ~ (ignoreClassFields = true /\ inClassField node)
       /\ r = keyed messages.useDestructAssignment "useDestructAssignment"
                    node (Some p) None.
Proof.
  unfold handleClassUsage.
  match goal with |- context [if ?b then _ else _] => destruct b eqn:Hc end;
    [|now left].
  simpl. intros Hin. apply in_app_or in Hin as [Hin|[<-|[]]]; [now left|].
  right. conditions.
  destruct (n_object node) as [obj|]; [|discriminate].
  cbn [o_type o_name o_object o_property] in *.
  unfold n_object, n_property in *.
  destruct (n_shape obj) as [| | |this prop| | | | | |] eqn:Hobj;
    try discriminate.
  cbn [o_type o_name] in *.
  destruct (n_name prop) as [p|] eqn:Hp.
  2:{ match goal with H : _ || _ || _ = true |- _ =>
        simpl in H; discriminate end. }
  exists obj, this, prop, p.
  repeat (split; [first [reflexivity | assumption | congruence]|]).
  split.
  { match goal with H : _ || _ || _ = true |- _ =>
      rewrite !orb_true_iff, !is_str_eq in H;
      destruct H as [[H|H]|H]; injection H as ->; auto end. }
  repeat (split; [first [reflexivity | assumption | congruence]|]).
  split; [|reflexivity].
  intros [Hi Hin].
  apply isInClassProperty_inClassField in Hin.
  match goal with H : _ && _ = false |- _ => rewrite Hi, Hin in H end.
  discriminate.
Qed.

Lemma declarator_fields (node pattern : Node) (init : option Node) :
  n_shape node = VariableDeclaratorNode pattern init ->
  n_init node = init /\ n_id node = Some pattern.
Proof. intros H. unfold n_init, n_id. now rewrite H. Qed.

(** X8. Under [never], a declarator [{...} = props] draws the
    [noDestructAssignment] report, naming [props], when the block of its
    scope is a function-style component, and no report otherwise; it
    draws no other report. *)
Theorem never_props_destructure (node pattern init : Node) (st : State) :
  n_shape node = VariableDeclaratorNode pattern (Some init) ->
  n_type pattern = "ObjectPattern" ->
  n_name init = Some "props" ->
  configuration = "never" ->
  reports (VariableDeclaratorHandler node st)
  = reports st
    ++ (if defined (components_get (block (getScope node)))
        then [keyed messages.noDestructAssignment "noDestructAssignment"
                    node (Some "props") None]
        else []).
Proof.
  intros Hshape Hpattern Hinit Hmode.
  destruct (declarator_fields _ _ _ Hshape) as [Hi Hp].
  destruct (named_fields _ _ Hinit) as (Hcallee & Hobject & Hproperty).
  unfold VariableDeclaratorHandler. rewrite Hi, Hp, Hmode. simpl.
  rewrite Hpattern, Hinit. simpl.
  rewrite ?Hcallee, ?Hobject, ?Hproperty. simpl.
  rewrite !andb_false_r. simpl.
  destruct (components_get _); simpl; [reflexivity|].
  now rewrite app_nil_r.
Qed.

(** X9. Under [never], a declarator [{...} = this.props] (or
    [this.context], [this.state]) draws the [noDestructAssignment]
    report, naming the property, when it lies in a class component,
    unless [ignoreClassFields] is set and its parent node itself is a
    class field; it draws no other report. *)
Theorem never_this_destructure (node pattern init this prop : Node)
    (p : string) (st : State) :
  n_shape node = VariableDeclaratorNode pattern (Some init) ->
  n_type pattern = "ObjectPattern" ->
  n_shape init = MemberExpression this prop ->
  n_type this = "ThisExpression" ->
  n_name prop = Some p ->
  p = "props" \/ p = "context" \/ p = "state" ->
  configuration = "never" ->
  reports (VariableDeclaratorHandler node st)
  = reports st
    ++ (if defined (getParentComponent node)
           && negb (ignoreClassFields
                    && from_option isClassField false
                         (o_type (n_parent node)))
        then [keyed messages.noDestructAssignment "noDestructAssignment"
                    node (Some p) None]
        else []).
Proof.
  intros Hshape Hpattern Hinit Hthis Hprop Hp Hmode.
  destruct (declarator_fields _ _ _ Hshape) as [Hi Hid].
  assert (n_name init = None /\ n_callee init = None
          /\ n_object init = Some this /\ n_property init = Some prop)
    as (Hn & Hc & Ho & Hpr).
  { unfold n_name, n_callee, n_object, n_property. now rewrite Hinit. }
  unfold VariableDeclaratorHandler. rewrite Hi, Hid, Hmode.
  cbn [o_type o_name o_callee o_object o_property].
  rewrite Hn, Hc, Ho, Hpr, Hpattern.
  cbn [o_type o_name o_callee o_object o_property].
  rewrite Hthis, Hprop. simpl.
  assert (String.eqb p "props" || String.eqb p "context"
          || String.eqb p "state" = true) as ->
    by (destruct Hp as [->|[->| ->]]; reflexivity).
  rewrite !andb_false_r. simpl.
  destruct (components_get _); simpl;
    destruct (defined (getParentComponent node)); simpl;
    try destruct (ignoreClassFields && _); simpl;
    rewrite ?app_nil_r; reflexivity.
Qed.

(** X10. Under [never], with hooks available, a declarator
    [{...} = useContext(...)] draws the bare report [Must never use
    destructuring useContext assignment] when the block of its scope is a
    function-style component, and no report otherwise; the set of context
    identifiers stays as it is. *)
Theorem never_useContext_destructure (node pattern init callee : Node)
    (st : State) :
  hasHooks = true ->
  n_shape node = VariableDeclaratorNode pattern (Some init) ->
  n_type pattern = "ObjectPattern" ->
  n_shape init = CallExpression callee ->
  n_name callee = Some "useContext" ->
  configuration = "never" ->
  reports (VariableDeclaratorHandler node st)
  = reports st
    ++ (if defined (components_get (block (getScope node)))
        then [bare node "Must never use destructuring useContext assignment"]
        else [])
  /\ contextSet (VariableDeclaratorHandler node st) = contextSet st.
Proof.
  intros Hhooks Hshape Hpattern Hinit Hcallee Hmode.
  destruct (declarator_fields _ _ _ Hshape) as [Hi Hid].
  assert (n_name init = None /\ n_callee init = Some callee
          /\ n_object init = None /\ n_property init = None)
    as (Hn & Hc & Ho & Hpr).
  { unfold n_name, n_callee, n_object, n_property. now rewrite Hinit. }
  unfold VariableDeclaratorHandler. rewrite Hhooks, Hi, Hid, Hmode.
  cbn [o_type o_name o_callee o_object o_property].
  rewrite Hn, Hc, Ho, Hpr, Hpattern.
  cbn [o_type o_name o_callee o_object o_property].
  rewrite Hcallee. simpl.
  rewrite !andb_false_r. simpl.
  destruct (components_get _); simpl; rewrite ?app_nil_r; auto.
Qed.

Lemma declarator_inert (node : Node) (st : State) :
  n_init node = None
  \/ (o_type (n_id node) <> Some "ObjectPattern"
      /\ o_type (n_id node) <> Some "Identifier") ->
  VariableDeclaratorHandler node st = st.
Proof.
  intros H.
  assert (defined (n_init node)
          && is_str (o_type (n_id node)) "ObjectPattern" = false
          /\ defined (n_init node)
             && is_str (o_type (n_id node)) "Identifier" = false)
    as [Hd Hi].
  { destruct H as [->|[Hp Hi]]; [auto|].
    rewrite <- is_str_eq in Hp, Hi.
    apply not_true_is_false in Hp, Hi. rewrite Hp, Hi.
    now rewrite !andb_false_r. }
  unfold VariableDeclaratorHandler. rewrite Hd, Hi. simpl.
  rewrite !andb_false_r. simpl. now destruct (components_get _).
Qed.

(** X11. A declarator without an initializer, and one whose target is
    neither an object pattern nor an identifier, leave the state as it
    is. *)
Theorem declarator_without_effect (node : Node) (st : State) :
  n_init node = None
  \/ (o_type (n_id node) <> Some "ObjectPattern"
      /\ o_type (n_id node) <> Some "Identifier") ->
  VariableDeclaratorHandler node st = st.
Proof. apply declarator_inert. Qed.

(** X12. Under [always] with [destructureInSignature] other than
    [always], in particular with the default options, no declarator
    draws a report. *)
Theorem always_without_signature_silent (node : Node) (st : State) :
  configuration = "always" ->
  destructureInSignature <> "always" ->
  reports (VariableDeclaratorHandler node st) = reports st.
Proof.
  intros Hmode Hsig. apply String.eqb_neq in Hsig.
  unfold VariableDeclaratorHandler. rewrite Hmode, Hsig. simpl.
  rewrite !andb_false_r. simpl.
  destruct (components_get _); simpl;
    repeat match goal with
           | |- context [match ?b with _ => _ end] => destruct b
           end; reflexivity.
Qed.

Lemma signature_case (node pattern init : Node) (component : Component)
    (st : State) :
  components_get (block (getScope node)) = Some component ->
  n_shape node = VariableDeclaratorNode pattern (Some init) ->
  n_type pattern = "ObjectPattern" ->
  n_name init = Some "props" ->
  configuration = "always" ->
  destructureInSignature = "always" ->
  VariableDeclaratorHandler node st
  = match option_map references (scope_set (getScope node) !! "props") with
    | None => st
    | Some propsRefs =>
        if Nat.ltb 1 (length propsRefs) then st
        else report messages.destructureInSignature "destructureInSignature"
                    node None (signatureFix component node) st
    end.
Proof.
  intros Hcomp Hshape Hpattern Hinit Hmode Hsig.
  destruct (declarator_fields _ _ _ Hshape) as [Hi Hp].
  destruct (named_fields _ _ Hinit) as (Hcallee & Hobject & Hproperty).
  unfold VariableDeclaratorHandler.
  rewrite Hcomp, Hi, Hp, Hmode, Hsig.
  cbn [o_type o_name o_callee o_object o_property].
  rewrite Hpattern, Hinit.
  rewrite ?Hcallee, ?Hobject, ?Hproperty. simpl.
  rewrite !andb_false_r. reflexivity.
Qed.

(** X13. When the component has no parameter, the
    [destructureInSignature] report is still sent, but its fix does
    nothing. *)
Theorem signature_report_without_parameter (node pattern init : Node)
    (component : Component) (v : ScopeVariable) (st : State) :
  components_get (block (getScope node)) = Some component ->
  n_shape node = VariableDeclaratorNode pattern (Some init) ->
  n_type pattern = "ObjectPattern" ->
  n_name init = Some "props" ->
  configuration = "always" ->
  destructureInSignature = "always" ->
  scope_set (getScope node) !! "props" = Some v ->
  length (references v) <= 1 ->
  n_params (c_node component) = [] ->
  reports (VariableDeclaratorHandler node st)
  = reports st ++ [keyed messages.destructureInSignature
                         "destructureInSignature" node None None].
Proof.
  intros Hcomp Hshape Hpattern Hinit Hmode Hsig Hprops Hle Hparams.
  rewrite (signature_case _ _ _ _ _ Hcomp Hshape Hpattern Hinit Hmode Hsig).
  rewrite Hprops. simpl. apply Nat.ltb_ge in Hle. rewrite Hle.
  unfold signatureFix. rewrite Hparams. reflexivity.
Qed.

(** X14. When the scope at the declarator has no variable named
    [props], a declarator [{...} = props] in a function-style component
    leaves the state as it is, even under [always] with
    [destructureInSignature] set to [always]. *)
Theorem signature_skipped_without_binding (node pattern init : Node)
    (component : Component) (st : State) :
  components_get (block (getScope node)) = Some component ->
  n_shape node = VariableDeclaratorNode pattern (Some init) ->
  n_type pattern = "ObjectPattern" ->
  n_name init = Some "props" ->
  configuration = "always" ->
  destructureInSignature = "always" ->
  scope_set (getScope node) !! "props" = None ->
  VariableDeclaratorHandler node st = st.
Proof.
  intros Hcomp Hshape Hpattern Hinit Hmode Hsig Hprops.
  rewrite (signature_case _ _ _ _ _ Hcomp Hshape Hpattern Hinit Hmode Hsig).
  now rewrite Hprops.
Qed.

(** X15. A declarator draws at most one report: the shapes of
    initializer that the four patterns ask for exclude one another. *)
Theorem declarator_at_most_one_report (node : Node) (st : State) :
  exists added,
    reports (VariableDeclaratorHandler node st) = reports st ++ added
    /\ length added <= 1.
Proof.
  assert (forall s : State, exists added,
            reports s = reports s ++ added /\ length added <= 1) as Hnone.
  { intros s. exists []. split; [now rewrite app_nil_r | simpl; lia]. }
  destruct (n_init node) as [init|] eqn:Hinit;
    [|rewrite declarator_inert by (now left); apply Hnone].
  destruct (n_id node) as [idn|] eqn:Hid;
    [|rewrite declarator_inert by (right; now rewrite Hid);
      apply Hnone].
  unfold VariableDeclaratorHandler, report, context_report.
  rewrite Hinit, Hid. simpl.
  destruct (String.eqb_spec configuration "never") as [Hnever|_];
    destruct (String.eqb_spec configuration "always") as [Halways|_];
    [rewrite Hnever in Halways; discriminate| | |].
  all: unfold n_name, n_callee, n_object, n_property.
  all: destruct (n_shape init); simpl; rewrite ?andb_false_r; simpl;
    repeat match goal with
           | |- context [match ?b with _ => _ end] => destruct b
           end; simpl;
    first [ apply Hnone
          | eexists [_]; split; [reflexivity | simpl; lia]
          | exists []; split; [now rewrite app_nil_r | simpl; lia] ].
Qed.

(** *** What every report of a traversal looks like *)

Ltac mode_report :=
  first
    [ left; split; [assumption|];
      first [ left; reflexivity
            | right; left; reflexivity
            | right; right; split; [reflexivity | eexists; reflexivity] ]
    | right; split; [assumption|];
      first [ left; reflexivity
            | right; left; reflexivity
            | right; right; left; reflexivity
            | right; right; right; split; [reflexivity|];
              match goal with
              | H : o_name (o_callee _) = Some "useContext" |- _ =>
                  simpl; rewrite H; reflexivity
              end ] ].

Ltac report_at :=
  split; [reflexivity|];
  split; [mode_report | simpl; intros ?; first [reflexivity | congruence]].

Lemma handleStatelessComponent_reportAt (node : Node) (st : State) :
  sends (reportAt node) st (handleStatelessComponent node st).
Proof.
  unfold handleStatelessComponent, report.
  destruct (defined (components_get (block _))); simpl; [|apply sends_refl].
  repeat match goal with
         | |- context [if ?b then _ else _] => destruct b eqn:?
         end;
    try (apply sends_same_reports; reflexivity);
    conditions; apply sends_then_send;
    try (apply sends_same_reports; reflexivity); report_at.
Qed.

Lemma handleSFCUsage_reportAt (node : Node) (st : State) :
  sends (reportAt node) st (handleSFCUsage node st).
Proof.
  destruct (handleSFCUsage_reports node st) as [Hr _].
  eexists. split; [exact Hr|]. apply Forall_app. split.
  - destruct (_ && _ && _) eqn:Hused; [|constructor].
    constructor; [|constructor]. conditions. report_at.
  - destruct (contextSet_has _ st && _ && _) eqn:Hknown; [|constructor].
    constructor; [|constructor]. conditions. report_at.
Qed.

Lemma handleClassUsage_reportAt (node : Node) (st : State) :
  sends (reportAt node) st (handleClassUsage node st).
Proof.
  unfold handleClassUsage.
  match goal with |- context [if ?b then _ else _] => destruct b eqn:? end;
    [|apply sends_refl].
  conditions. apply sends_send. report_at.
Qed.

Lemma MemberExpressionHandler_reportAt (node : Node) (st : State) :
  sends (reportAt node) st (MemberExpressionHandler node st).
Proof.
  unfold MemberExpressionHandler.
  eapply sends_trans with
    (st' := if defined (enclosingSFCComponent (getScope node))
            then handleSFCUsage node st else st).
  - destruct (defined (enclosingSFCComponent _));
      [apply handleSFCUsage_reportAt | apply sends_refl].
  - destruct (defined (getParentComponent node)); [|apply sends_refl].
    apply handleClassUsage_reportAt.
Qed.

Lemma VariableDeclaratorHandler_reportAt (node : Node) (st : State) :
  sends (reportAt node) st (VariableDeclaratorHandler node st).
Proof.
  unfold VariableDeclaratorHandler, report, context_report.
  repeat match goal with
         | |- context [match ?b with _ => _ end] => destruct b eqn:?
         end;
    conditions;
    repeat first
      [ apply sends_refl
      | apply sends_then_add
      | apply sends_then_send; [|report_at] ].
Qed.

Lemma visit_reportAt (e : Event) (st : State) :
  sends (fun r => exists node, e = Enter node /\ reportAt node r)
        st (visit e st).
Proof.
  destruct e as [node|node]; simpl.
  - eapply sends_weaken with (ok := reportAt node); [now eauto|].
    destruct (n_shape node); try apply sends_refl.
    + apply MemberExpressionHandler_reportAt.
    + apply VariableDeclaratorHandler_reportAt.
    + apply handleStatelessComponent_reportAt.
  - destruct (n_shape node); try apply sends_refl.
    apply sends_same_reports, handleStatelessComponentExit_same.
Qed.

Lemma run_reportAt (es : list Event) (st : State) :
  sends (fun r => exists node, In (Enter node) es /\ reportAt node r)
        st (run es st).
Proof.
  revert st. induction es as [|e es IH]; intros st; [apply sends_refl|].
  rewrite run_cons. eapply sends_trans.
  - eapply sends_weaken; [|apply visit_reportAt].
    intros r (node & -> & Hr). exists node. split; [now left|assumption].
  - eapply sends_weaken; [|apply IH].
    intros r (node & Hin & Hr). exists node. split; [now right|assumption].
Qed.

(** X16. A traversal only appends reports to those sent before, and
    every report it appends points at a node that the traversal
    entered. *)
Theorem reports_point_at_entered_nodes (es : list Event) (st : State) :
  exists added,
    reports (run es st) = reports st ++ added
    /\ forall r, In r added -> In (Enter (r_node r)) es.
Proof.
  destruct (run_reportAt es st) as (added & Hadded & Hok).
  exists added. split; [assumption|]. intros r Hin.
  rewrite Forall_forall in Hok. apply list_elem_of_In in Hin.
  destruct (Hok r Hin) as (node & Hnode & <- & _). exact Hnode.
Qed.

(** X17. Every report of a traversal belongs to the configured mode:
    under [always] it is a [useDestructAssignment] or
    [destructureInSignature] report or the bare [Must use destructuring]
    one; under [never] it is one of the three [noDestruct...] reports or
    the bare [Must never use destructuring] one; under any other mode
    there is no report. *)
Theorem reports_follow_mode (es : list Event) (r : Report) :
  In r (reports (run es initial)) ->
  (configuration = "always" /\ alwaysReport r)
  \/ (configuration = "never" /\ neverReport r).
Proof.
  destruct (run_reportAt es initial) as (added & -> & Hok). simpl.
  intros Hin. rewrite Forall_forall in Hok. apply list_elem_of_In in Hin.
  destruct (Hok r Hin) as (node & _ & _ & Hmode & _). exact Hmode.
Qed.

(** X18. The only report of a traversal that comes with a fix is the
    [destructureInSignature] report. *)
Theorem fix_only_with_signature_report (es : list Event) (r : Report) :
  In r (reports (run es initial)) ->
  r_fix r <> None ->
  r_messageId r = Some "destructureInSignature".
Proof.
  destruct (run_reportAt es initial) as (added & -> & Hok). simpl.
  intros Hin. rewrite Forall_forall in Hok. apply list_elem_of_In in Hin.
  destruct (Hok r Hin) as (node & _ & _ & _ & Hfix). exact Hfix.
Qed.

Lemma VariableDeclaratorHandler_adds (node : Node) (st : State) (x : string) :
  x ∈ contextSet (VariableDeclaratorHandler node st) ->
  x ∈ contextSet st \/ bindsContext node x.
Proof.
  assert (contextSet (VariableDeclaratorHandler node st)
          = contextSet
              (if defined (components_get (block (getScope node)))
                  && (hasHooks
                      && (defined (n_init node)
                          && is_str (o_type (n_id node)) "Identifier")
                      && is_str (o_name (o_callee (n_init node)))
                                "useContext")
               then match o_name (n_id node) with
                    | Some x => contextSet_add x st
                    | None => st
                    end
               else st)) as ->.
  { unfold VariableDeclaratorHandler.
    repeat match goal with
           | |- context [match ?b with _ => _ end] => destruct b
           end; reflexivity. }
  destruct (defined (components_get _) && _) eqn:Hadd; [|now left].
  conditions.
  destruct (n_id node) as [idn|] eqn:Hid; [|now left].
  cbn [o_name o_type] in *.
  destruct (n_name idn) as [y|] eqn:Hy; [|now left].
  simpl. rewrite elem_of_union, elem_of_singleton.
  intros [->|Hx]; [|now left]. right.
  destruct (n_init node) as [call|] eqn:Hinit; [|discriminate].
  cbn [o_callee o_name] in *.
  destruct (n_callee call) as [callee|] eqn:Hcallee; [|discriminate].
  split; [assumption|]. split; [assumption|].
  exists idn, call, callee.
  split.
  { unfold n_id, n_init in *.
    destruct (n_shape node); try discriminate. congruence. }
  split; [|split; assumption].
  match goal with
  | H : Some (n_type idn) = Some "Identifier" |- _ => injection H as Hty
  end.
  unfold n_type, n_name in *.
  destruct (n_shape idn) as [z| | | | | |[]|ty| |]; try discriminate.
  congruence.
Qed.

Lemma run_adds (es : list Event) (st : State) (x : string) :
  x ∈ contextSet (run es st) ->
  x ∈ contextSet st \/ exists decl, In (Enter decl) es /\ bindsContext decl x.
Proof.
  revert st. induction es as [|e es IH]; intros st; [now left|].
  rewrite run_cons. intros Hx.
  destruct (IH _ Hx) as [Hv|(decl & Hin & Hb)];
    [|right; exists decl; split; [now right|assumption]].
  assert (x ∈ contextSet st \/ exists decl, e = Enter decl
                                          /\ bindsContext decl x) as [H|H].
  { destruct e as [node|node]; simpl in Hv.
    - destruct (n_shape node) eqn:Hshape; auto.
      + left. now destruct (MemberExpressionHandler_state node st) as [_ <-].
      + destruct (VariableDeclaratorHandler_adds _ _ _ Hv); eauto.
      + left. now destruct (handleStatelessComponent_sends node st)
          as [_ <-].
    - left. destruct (n_shape node); auto.
      now destruct (handleStatelessComponentExit_same node st) as [_ <-]. }
  - now left.
  - destruct H as (decl & -> & Hb). right. exists decl.
    split; [now left|assumption].
Qed.

(** X19. Every name in the set of context identifiers after a traversal
    was put there at a declarator that the traversal entered, whose
    target is an identifier of that name and whose initializer has a
    callee named [useContext] (a call [useContext(...)], or
    [new useContext(...)]), with the block of its scope a function-style
    component and hooks available. *)
Theorem context_identifiers_come_from_useContext (es : list Event)
    (x : string) :
  x ∈ contextSet (run es initial) ->
  exists decl, In (Enter decl) es /\ bindsContext decl x.
Proof.
  intros Hx. destruct (run_adds _ _ _ Hx) as [Hempty|H]; [|exact H].
  simpl in Hempty. set_solver.
Qed.

(** *** Entering a function, then reading a member *)




End FurtherProperties.

(** ** The further properties on the sample programs *)

Lemma member_access_left_alone_witness :
  @configuration Sample.never <> "always"
  /\ @MemberExpressionHandler Sample.plain Sample.never Sample.propsX
       (Sample.inComp Sample.plain Sample.never)
     = Sample.inComp Sample.plain Sample.never.
Proof.
  assert (@configuration Sample.never <> "always") as Hmode by discriminate.
  split; [exact Hmode|].
  exact (@member_access_left_alone Sample.plain Sample.never Sample.propsX
           (Sample.inComp Sample.plain Sample.never) (or_introl Hmode)).
Defined.

Lemma function_style_reports_only_named_witness :
  In (keyed messages.useDestructAssignment "useDestructAssignment"
            Sample.propsX (Some "props") None)
     (reports (@handleSFCUsage Sample.plain Sample.always Sample.propsX
                 (Sample.inComp Sample.plain Sample.always)))
  /\ (In (keyed messages.useDestructAssignment "useDestructAssignment"
                Sample.propsX (Some "props") None)
         (reports (Sample.inComp Sample.plain Sample.always))
      \/ exists x,
           o_name (n_object Sample.propsX) = Some x
           /\ @isAssignmentLHS Sample.plain Sample.propsX = false
           /\ @configuration Sample.always = "always"
           /\ ((keyed messages.useDestructAssignment "useDestructAssignment"
                      Sample.propsX (Some "props") None
                = keyed messages.useDestructAssignment "useDestructAssignment"
                        Sample.propsX (Some x) None
                /\ (sfcParams.propsName
                      (queue (Sample.inComp Sample.plain Sample.always))
                    = Some x
                    \/ sfcParams.contextName
                         (queue (Sample.inComp Sample.plain Sample.always))
                       = Some x))
               \/ (keyed messages.useDestructAssignment
                         "useDestructAssignment" Sample.propsX
                         (Some "props") None
                   = bare Sample.propsX ("Must use destructuring " +:+ x
                                           +:+ " assignment")
                   /\ x ∈ contextSet
                          (Sample.inComp Sample.plain Sample.always)))).
Proof.
  assert (In (keyed messages.useDestructAssignment "useDestructAssignment"
                    Sample.propsX (Some "props") None)
             (reports (@handleSFCUsage Sample.plain Sample.always
                         Sample.propsX
                         (Sample.inComp Sample.plain Sample.always))))
    as Hin by (vm_compute; left; reflexivity).
  split; [exact Hin|].
  exact (@function_style_reports_only_named Sample.plain Sample.always
           Sample.propsX (Sample.inComp Sample.plain Sample.always) _ Hin).
Defined.

Lemma class_style_reports_only_this_witness :
  In (keyed messages.useDestructAssignment "useDestructAssignment"
            Sample.inRender (Some "props") None)
     (reports (@handleClassUsage Sample.classy Sample.always Sample.inRender
                 initial))
  /\ exists obj this prop p,
       n_object Sample.inRender = Some obj
       /\ n_shape obj = MemberExpression this prop
       /\ n_type this = "ThisExpression"
       /\ n_name prop = Some p
       /\ (p = "props" \/ p = "context" \/ p = "state").
Proof.
  assert (In (keyed messages.useDestructAssignment "useDestructAssignment"
                    Sample.inRender (Some "props") None)
             (reports (@handleClassUsage Sample.classy Sample.always
                         Sample.inRender initial)))
    as Hin by (vm_compute; left; reflexivity).
  split; [exact Hin|].
  destruct (@class_style_reports_only_this Sample.classy Sample.always
              Sample.inRender initial _ Hin)
    as [[]|(obj & this & prop & p & Ho & Hs & Ht & Hn & Hp & _)].
  exists obj, this, prop, p. auto.
Defined.

Lemma never_props_destructure_witness :
  @configuration Sample.never = "never"
  /\ reports (@VariableDeclaratorHandler Sample.plain Sample.never
                Sample.xOfProps initial)
     = [keyed messages.noDestructAssignment "noDestructAssignment"
              Sample.xOfProps (Some "props") None].
Proof.
  split; [reflexivity|].
  exact (@never_props_destructure Sample.plain Sample.never Sample.xOfProps
           (mkNode ObjectPattern (29, 34) None None)
           (Sample.ident "props" (37, 42)) initial
           eq_refl eq_refl eq_refl eq_refl).
Defined.

Lemma never_this_destructure_witness :
  @configuration Cases.neverIgnoringClassFields = "never"
  /\ @ignoreClassFields Cases.neverIgnoringClassFields = true
  /\ isInClassProperty Cases.inFieldArrow = true
  /\ reports (@VariableDeclaratorHandler Sample.classy
                Cases.neverIgnoringClassFields Cases.inFieldArrow initial)
     = [keyed messages.noDestructAssignment "noDestructAssignment"
              Cases.inFieldArrow (Some "props") None].
Proof.
  repeat (split; [reflexivity|]).
  exact (@never_this_destructure Sample.classy Cases.neverIgnoringClassFields
           Cases.inFieldArrow (mkNode ObjectPattern (30, 35) None None)
           Cases.thisProps (mkNode ThisExpression (40, 44) None None)
           (Sample.ident "props" (45, 50)) "props" initial
           eq_refl eq_refl eq_refl eq_refl eq_refl (or_introl eq_refl)
           eq_refl).
Defined.

Lemma never_useContext_destructure_witness :
  @hasHooks Sample.plain = true
  /\ @configuration Sample.never = "never"
  /\ reports (@VariableDeclaratorHandler Sample.plain Sample.never
                Sample.xOfContext initial)
     = [bare Sample.xOfContext
             "Must never use destructuring useContext assignment"].
Proof.
  repeat (split; [reflexivity|]).
  exact (proj1 (@never_useContext_destructure Sample.plain Sample.never
                  Sample.xOfContext (mkNode ObjectPattern (29, 34) None None)
                  (mkNode (CallExpression (Sample.ident "useContext" (37, 47)))
                          (37, 52) None None)
                  (Sample.ident "useContext" (37, 47)) initial
                  eq_refl eq_refl eq_refl eq_refl eq_refl eq_refl)).
Defined.

Lemma declarator_without_effect_witness :
  n_init Cases.xAlone = None
  /\ @VariableDeclaratorHandler Sample.plain Sample.never Cases.xAlone
       (Sample.inComp Sample.plain Sample.never)
     = Sample.inComp Sample.plain Sample.never.
Proof.
  split; [reflexivity|].
  exact (@declarator_without_effect Sample.plain Sample.never Cases.xAlone
           (Sample.inComp Sample.plain Sample.never) (or_introl eq_refl)).
Defined.

Lemma always_without_signature_silent_witness :
  @configuration Sample.always = "always"
  /\ @destructureInSignature Sample.always <> "always"
  /\ reports (@VariableDeclaratorHandler Sample.usedOnce Sample.always
                Sample.xOfProps initial)
     = [].
Proof.
  assert (@destructureInSignature Sample.always <> "always") as Hsig
    by discriminate.
  split; [reflexivity|]. split; [exact Hsig|].
  exact (@always_without_signature_silent Sample.usedOnce Sample.always
           Sample.xOfProps initial eq_refl Hsig).
Defined.

Lemma signature_report_without_parameter_witness :
  @components_get Sample.usedOnce
     (block (@getScope Sample.usedOnce Cases.xOfPropsInBare))
  = Some {| c_node := Cases.Bare |}
  /\ scope_set (@getScope Sample.usedOnce Cases.xOfPropsInBare) !! "props"
     = Some {| references := [Sample.ident "props" (37, 42)] |}
  /\ n_params Cases.Bare = []
  /\ reports (@VariableDeclaratorHandler Sample.usedOnce
                Sample.alwaysInSignature Cases.xOfPropsInBare initial)
     = [keyed messages.destructureInSignature "destructureInSignature"
              Cases.xOfPropsInBare None None].
Proof.
  assert (scope_set (@getScope Sample.usedOnce Cases.xOfPropsInBare)
            !! "props"
          = Some {| references := [Sample.ident "props" (37, 42)] |}) as Hv
    by (vm_compute; reflexivity).
  repeat (split; [first [reflexivity | exact Hv]|]).
  exact (@signature_report_without_parameter Sample.usedOnce
           Sample.alwaysInSignature Cases.xOfPropsInBare
           (mkNode ObjectPattern (36, 41) None None)
           (Sample.ident "props" (44, 49))
           {| c_node := Cases.Bare |}
           {| references := [Sample.ident "props" (37, 42)] |}
           initial eq_refl eq_refl eq_refl eq_refl eq_refl eq_refl Hv
           (le_n 1) eq_refl).
Defined.

Lemma signature_skipped_without_binding_witness :
  scope_set (@getScope Sample.plain Sample.xOfProps) !! "props" = None
  /\ @VariableDeclaratorHandler Sample.plain Sample.alwaysInSignature
       Sample.xOfProps initial
     = initial.
Proof.
  assert (scope_set (@getScope Sample.plain Sample.xOfProps) !! "props"
          = None) as Hv by (vm_compute; reflexivity).
  split; [exact Hv|].
  exact (@signature_skipped_without_binding Sample.plain
           Sample.alwaysInSignature Sample.xOfProps
           (mkNode ObjectPattern (29, 34) None None)
           (Sample.ident "props" (37, 42))
           {| c_node := Sample.Comp |} initial
           eq_refl eq_refl eq_refl eq_refl eq_refl eq_refl Hv).
Defined.

Lemma reports_follow_mode_witness :
  In (bare Sample.fooValue "Must use destructuring foo assignment")
     (reports (@run Sample.plain Sample.always Sample.toFooValue initial))
  /\ ((@configuration Sample.always = "always"
       /\ alwaysReport
            (bare Sample.fooValue "Must use destructuring foo assignment"))
      \/ (@configuration Sample.always = "never"
          /\ neverReport
               (bare Sample.fooValue
                     "Must use destructuring foo assignment"))).
Proof.
  assert (In (bare Sample.fooValue "Must use destructuring foo assignment")
             (reports (@run Sample.plain Sample.always Sample.toFooValue
                         initial))) as Hin
    by (vm_compute; left; reflexivity).
  split; [exact Hin|].
  exact (@reports_follow_mode Sample.plain Sample.always Sample.toFooValue
           _ Hin).
Defined.

Lemma fix_only_with_signature_report_witness :
  exists r,
    In r (reports (@run Sample.usedOnce Sample.alwaysInSignature
                     Cases.toXOfProps initial))
    /\ r_fix r <> None
    /\ r_messageId r = Some "destructureInSignature".
Proof.
  exists (keyed messages.destructureInSignature "destructureInSignature"
                Sample.xOfProps None
                (Some [replaceTextRange (14, 19) "{ x }";
                       remove (Sample.node (OtherNode "VariableDeclaration")
                                 (23, 43) Sample.CompBody)])).
  assert (In (keyed messages.destructureInSignature "destructureInSignature"
                    Sample.xOfProps None
                    (Some [replaceTextRange (14, 19) "{ x }";
                           remove (Sample.node
                                     (OtherNode "VariableDeclaration")
                                     (23, 43) Sample.CompBody)]))
             (reports (@run Sample.usedOnce Sample.alwaysInSignature
                         Cases.toXOfProps initial))) as Hin
    by (vm_compute; left; reflexivity).
  assert (r_fix (keyed messages.destructureInSignature
                       "destructureInSignature" Sample.xOfProps None
                       (Some [replaceTextRange (14, 19) "{ x }";
                              remove (Sample.node
                                        (OtherNode "VariableDeclaration")
                                        (23, 43) Sample.CompBody)]))
          <> None) as Hfix by discriminate.
  split; [exact Hin|]. split; [exact Hfix|].
  exact (@fix_only_with_signature_report Sample.usedOnce
           Sample.alwaysInSignature Cases.toXOfProps _ Hin Hfix).
Defined.

Lemma context_identifiers_come_from_useContext_witness :
  "foo" ∈ contextSet (@run Sample.plain Sample.always Sample.toFooValue
                        initial)
  /\ exists decl,
       In (Enter decl) Sample.toFooValue
       /\ @bindsContext Sample.plain decl "foo".
Proof.
  assert ("foo" ∈ contextSet (@run Sample.plain Sample.always
                                Sample.toFooValue initial)) as Hin
    by (apply (bool_decide_unpack _); vm_compute; exact I).
  split; [exact Hin|].
  exact (@context_identifiers_come_from_useContext Sample.plain Sample.always
           Sample.toFooValue "foo" Hin).
Defined.



(** ** The stack along a walk with a registry that changes *)

Section SteadyRegistry.

Context {options : Options}.

Lemma visitIn_queue (h : Host) (e : Event) (st : State) :
  queue (visitIn (h, e) st)
  = match e with
    | Enter node =>
        if trackedIn (h, node) then evalParams (n_params node) :: queue st
        else queue st
    | Leave node => if trackedIn (h, node) then tail (queue st) else queue st
    end.
Proof. apply (@visit_queue h options). Qed.

Lemma runIn_cons (he : Host * Event) (w : list (Host * Event)) (st : State) :
  runIn (he :: w) st = runIn w (visitIn he st).
Proof. reflexivity. Qed.

Lemma runIn_app (w w' : list (Host * Event)) (st : State) :
  runIn (w ++ w') st = runIn w' (runIn w st).
Proof. apply fold_left_app. Qed.

Lemma framesIn_app (l l' : list (Host * Node)) :
  framesIn (l ++ l') = framesIn l ++ framesIn l'.
Proof. unfold framesIn. now rewrite List.filter_app, map_app. Qed.

Lemma WalkTree_forest_ind (P : WalkTree -> Prop) :
  (forall node entering leaving children,
     Forall P children -> P (WNode node entering leaving children)) ->
  forall t, P t.
Proof.
  intros Hnode. fix IH 1. intros [node entering leaving children].
  apply Hnode. revert children. fix IHchildren 1. intros [|child children].
  - constructor.
  - constructor; [apply IH | apply IHchildren].
Qed.

Lemma open_in_app (w w' : list (Host * Event)) (acc : list (Host * Node)) :
  open_in (w ++ w') acc = open_in w' (open_in w acc).
Proof.
  revert acc. induction w as [|[h [n|n]] w IH]; intros acc; simpl; auto.
Qed.

Lemma restoresIn_app (w w' : list (Host * Event)) :
  restoresIn w -> restoresIn w' -> restoresIn (w ++ w').
Proof.
  intros H H' st acc. rewrite runIn_app, open_in_app.
  destruct (H st acc) as [Hq ->]. destruct (H' (runIn w st) acc) as [-> ->].
  auto.
Qed.

Lemma followsIn_nil : followsIn [].
Proof.
  intros pre rest st acc Heq. symmetry in Heq.
  apply app_eq_nil in Heq as [-> _]. exists []. auto.
Qed.

Lemma followsIn_app (w w' : list (Host * Event)) :
  restoresIn w -> followsIn w -> followsIn w' -> followsIn (w ++ w').
Proof.
  intros Hr Hf Hf' pre rest st acc Heq.
  symmetry in Heq. apply app_eq_app in Heq as [l [[-> ->]|[-> ->]]].
  - rewrite runIn_app, open_in_app.
    destruct (Hr st acc) as [Hq ->].
    destruct (Hf' l rest (runIn w st) acc eq_refl) as (opened & -> & ->).
    exists opened. now rewrite Hq.
  - apply (Hf pre l st acc eq_refl).
Qed.

Lemma forest_restoresIn (children : list WalkTree) :
  Forall (fun t => restoresIn (walk t)) children ->
  restoresIn (flat_map walk children).
Proof.
  induction 1 as [|t children Ht _ IH]; simpl.
  - intros st acc. auto.
  - now apply restoresIn_app.
Qed.

Lemma forest_followsIn (children : list WalkTree) :
  Forall (fun t => restoresIn (walk t) /\ followsIn (walk t)) children ->
  followsIn (flat_map walk children).
Proof.
  induction 1 as [|t children [Hr Hf] _ IH]; simpl.
  - apply followsIn_nil.
  - now apply followsIn_app.
Qed.

Lemma enter_leave_restoresIn (node : Node) (entering leaving : Host)
    (body : list (Host * Event)) :
  trackedIn (entering, node) = trackedIn (leaving, node) ->
  restoresIn body ->
  restoresIn ((entering, Enter node) :: body ++ [(leaving, Leave node)]).
Proof.
  intros Hsame Hbody st acc.
  change ((entering, Enter node) :: body ++ [(leaving, Leave node)])
    with ([(entering, Enter node)] ++ body ++ [(leaving, Leave node)]).
  rewrite !runIn_app, !open_in_app.
  change (runIn [(entering, Enter node)] st)
    with (visitIn (entering, Enter node) st).
  cbn [open_in].
  destruct (Hbody (visitIn (entering, Enter node) st)
              ((entering, node) :: acc)) as [Hq ->].
  split; [|reflexivity].
  change (runIn [(leaving, Leave node)] ?s)
    with (visitIn (leaving, Leave node) s).
  rewrite (visitIn_queue leaving (Leave node)), Hq,
    (visitIn_queue entering (Enter node)), <- Hsame.
  now destruct (trackedIn (entering, node)).
Qed.

Lemma enter_leave_followsIn (node : Node) (entering leaving : Host)
    (body : list (Host * Event)) :
  trackedIn (entering, node) = trackedIn (leaving, node) ->
  restoresIn body -> followsIn body ->
  followsIn ((entering, Enter node) :: body ++ [(leaving, Leave node)]).
Proof.
  intros Hsame Hr Hf pre rest st acc Heq.
  destruct pre as [|e pre]; [exists []; auto|].
  simpl in Heq. injection Heq as <- Heq.
  apply app_eq_app in Heq as [l [[-> Hl]|[-> Hl]]].
  - (* still inside the body *)
    destruct (Hf pre l (visitIn (entering, Enter node) st)
                ((entering, node) :: acc) eq_refl)
      as (opened & Hopen & Hqueue).
    exists (opened ++ [(entering, node)]). rewrite runIn_cons. cbn [open_in].
    rewrite Hopen, Hqueue.
    rewrite <- app_assoc, framesIn_app, <- app_assoc. split; [reflexivity|].
    f_equal. rewrite (visitIn_queue entering (Enter node)).
    unfold framesIn. simpl.
    now destruct (trackedIn (entering, node)).
  - (* the body is over *)
    destruct l as [|e l].
    + rewrite app_nil_r.
      destruct (Hr (visitIn (entering, Enter node) st)
                  ((entering, node) :: acc)) as [Hq Ho].
      exists [(entering, node)]. rewrite runIn_cons. cbn [open_in].
      rewrite Ho, Hq. split; [reflexivity|].
      rewrite (visitIn_queue entering (Enter node)). unfold framesIn. simpl.
      now destruct (trackedIn (entering, node)).
    + simpl in Hl. injection Hl as <- Hl.
      symmetry in Hl. apply app_eq_nil in Hl as [-> ->].
      exists [].
      destruct (enter_leave_restoresIn node entering leaving body Hsame Hr
                  st acc) as [Hq Ho].
      split; [exact Ho | exact Hq].
Qed.

Lemma steady_inv (node : Node) (entering leaving : Host)
    (children : list WalkTree) :
  steady (WNode node entering leaving children) ->
  trackedIn (entering, node) = trackedIn (leaving, node)
  /\ Forall steady children.
Proof. intros H. inversion H. auto. Qed.

Lemma walk_restoresIn_followsIn (t : WalkTree) :
  steady t -> restoresIn (walk t) /\ followsIn (walk t).
Proof.
  induction t as [node entering leaving children IH]
    using WalkTree_forest_ind.
  intros Hsteady. apply steady_inv in Hsteady as [Hsame Hchildren]. simpl.
  assert (Forall (fun t => restoresIn (walk t) /\ followsIn (walk t))
                 children) as Hall.
  { clear Hsame. induction IH as [|t children Ht _ IHc]; [constructor|].
    apply Forall_cons in Hchildren as [Hst Hrest].
    constructor; auto. }
  assert (restoresIn (flat_map walk children)) as Hr.
  { apply forest_restoresIn. eapply Forall_impl; [exact Hall|].
    now intros t []. }
  split.
  - now apply enter_leave_restoresIn.
  - apply enter_leave_followsIn; [assumption|assumption|].
    now apply forest_followsIn.
Qed.

(** X20. When, for every function of a tree, the registry answers the
    same about the block of its scope at its enter and at its exit, then
    after any initial part of the walk the stack holds, above what it
    held at the start, the descriptors of the parameters of the tracked
    functions entered and not yet left, innermost first; the registry
    may change in any other way during the walk. *)
Theorem stack_holds_open_frames_while_steady (t : WalkTree)
    (pre rest : list (Host * Event)) (st : State) :
  steady t ->
  walk t = pre ++ rest ->
  queue (runIn pre st) = framesIn (open_in pre []) ++ queue st.
Proof.
  intros Hsteady Heq.
  destruct (walk_restoresIn_followsIn t Hsteady) as [_ Hf].
  destruct (Hf pre rest st [] Heq) as (opened & -> & ->).
  now rewrite app_nil_r.
Qed.

End SteadyRegistry.

Lemma stack_holds_open_frames_while_steady_witness :
  steady Cases.CompTree
  /\ walk Cases.CompTree = Cases.toFooDeclarator ++ Cases.fromFooDeclarator
  /\ queue (@runIn Sample.always Cases.toFooDeclarator initial)
     = [evalParams [Sample.ident "props" (14, 19)]].
Proof.
  assert (steady Cases.CompTree) as Hsteady
    by (repeat (constructor; try reflexivity)).
  split; [exact Hsteady|]. split; [reflexivity|].
  exact (@stack_holds_open_frames_while_steady Sample.always Cases.CompTree
           Cases.toFooDeclarator Cases.fromFooDeclarator initial
           Hsteady eq_refl).
Defined.

(** C6. The code departs from it when the registry comes to hold a
    function between the function's enter and its exit: for
    [function Comp(props) { (function (e) { ... }); return props.x; }]
    under [always], the nested function is entered while the registry
    does not hold it, so that no frame is pushed, and left when the
    registry holds it, so that the frame of [Comp] is popped.  The stack
    is then empty while [Comp] is still open, and the access [props.x]
    that follows draws no report; with the registry holding both
    functions from the start, the same events leave the frame of [Comp]
    on the stack and report the access. *)
Theorem stack_drifts_when_registry_changes :
  queue (@runIn Sample.always [(Cases.onlyComp, Enter Sample.Comp)] initial)
  = [evalParams [Sample.ident "props" (14, 19)]]
  /\ queue (@runIn Sample.always Cases.registeredInside initial) = []
  /\ reports (@runIn Sample.always
                (Cases.registeredInside ++ Cases.thenPropsX) initial)
     = []
  /\ reports (@runIn Sample.always Cases.registeredBefore initial)
     = [keyed messages.useDestructAssignment "useDestructAssignment"
              Sample.propsX (Some "props") None].
Proof. repeat split; vm_compute; reflexivity. Qed.


(** C7 as stated fails: in [function Comp(props) { props.x++; }] the
    access [props.x] is the operand of an update expression; the helper
    [isAssignmentLHS] answers for the left-hand side of an assignment
    expression only, and under [always] the access is reported. *)
Lemma update_operand_reported :
  o_type (n_parent Cases.propsXUpdated) = Some "UpdateExpression"
  /\ @isAssignmentLHS Sample.plain Cases.propsXUpdated = false
  /\ reports (@MemberExpressionHandler Sample.plain Sample.always
                Cases.propsXUpdated
                (Sample.inComp Sample.plain Sample.always))
     = [keyed messages.useDestructAssignment "useDestructAssignment"
              Cases.propsXUpdated (Some "props") None].
Proof. repeat split; vm_compute; reflexivity. Qed.
